(** * Leontief shock model: a shallow embedding of
      [leontieff_model_reproducible_result.py]

    The development follows the Python module: the class [Leontief_Model]
    (constructor and [shock]), the class [ReproducibleResult] (constructor,
    [run] and [analyze_result]) and the script at the end of the module.

    Numbers.  numpy's float64 is modelled by [float64]: a finite value is an
    exact rational (zero is unsigned) and the three special values NaN,
    +inf and -inf behave as in IEEE 754.  The model does not round and a
    finite result never overflows, so it is exact where binary64 is
    approximate.  The properties are stated with this in mind:
    - nothing is concluded about the size of a quotient, a product or a
      sum of finite values, which in binary64 may be infinite;
    - an order between computed percentiles is stated for effects of
      magnitude at most 2^1022 ([moderate]), where the differences that
      numpy's interpolation takes stay in range and rounding, which is
      monotone, keeps the order;
    - nothing is stated about the value of a sum under a rearrangement of
      its terms;
    - an identity that holds of the formulas and not of their rounded
      evaluation (the output identity, the balanced economy, the effect as
      an affine function of the shock size) is marked "in exact
      arithmetic": binary64 agrees with it up to rounding only.

    State.  Python objects that are shared and mutated (numpy arrays, pandas
    Series, the result dictionary) live in a heap of objects addressed by
    location; the global random generator and the files of the working
    directory are part of the same [World].  A computation maps a world to
    an outcome and a world; a raised exception keeps the world as it was at
    that moment.

    Library.  What numpy does and the source does not show (the generator's
    permutation, the matrix inverse, the square root, the quantile of an
    empty sample) is the interface [NumPy]; every property is proved for
    every implementation of it.  The same holds for matplotlib and the
    interface [PyPlot]: the calls that draw the figure are recorded with
    their arguments, and whether a histogram can be drawn from given data
    is left to the library.

    Output.  What [analyze_result] prints and plots is a sequence of
    events; a printed line is the list of the arguments of [print].

    Shapes.  The table is the parsed CSV: a header and rows of a label and
    numeric cells.  The slices of the constructor keep what is there;
    arrays whose shapes numpy cannot combine raise its shape error. *)

From Stdlib Require Import QArith Qcanon Qround Lqa ZArith Lia.
From stdpp Require Import base decidable option list numbers strings pretty gmap sorting.

Local Open Scope Z_scope.
Local Open Scope nat_scope.

(** ** float64 *)

(** A finite value carries the rational it stands for; the operations of
    [F] below compute on it exactly, without rounding and without
    overflow. *)
Inductive float64 : Type :=
  | Fin (q : Qc)
  | PInf
  | NInf
  | NaN.

#[global] Instance float64_eq_dec : EqDecision float64.
Proof. solve_decision. Defined.

#[global] Instance float64_inhabited : Inhabited float64 := populate NaN.

Module F.

Definition of_Q (q : Q) : float64 := Fin (Q2Qc q).
Definition of_nat (n : nat) : float64 := of_Q (inject_Z (Z.of_nat n)).

Definition zero : float64 := of_Q 0.
Definition one : float64 := of_Q 1.

(** The rational behind a finite value. *)
Definition to_Q (x : float64) : option Q :=
  match x with Fin q => Some (this q) | _ => None end.

Definition isnan (x : float64) : bool :=
  match x with NaN => true | _ => false end.

Definition isfinite (x : float64) : bool :=
  match x with Fin _ => true | _ => false end.

(** Sign of a value: [Gt] positive, [Lt] negative, [Eq] zero (or NaN). *)
Definition sgn (x : float64) : comparison :=
  match x with
  | Fin q => (q ?= Q2Qc 0)%Qc
  | PInf => Gt
  | NInf => Lt
  | NaN => Eq
  end.

Definition sgn_mul (c d : comparison) : comparison :=
  match c, d with
  | Eq, _ | _, Eq => Eq
  | Gt, Gt | Lt, Lt => Gt
  | _, _ => Lt
  end.

(** The infinity of a given sign; the sign [Eq] stands for an invalid
    operation such as [0 * inf] or [0 / 0]. *)
Definition signed_inf (c : comparison) : float64 :=
  match c with Gt => PInf | Lt => NInf | Eq => NaN end.

Definition opp (x : float64) : float64 :=
  match x with
  | Fin q => Fin (- q)%Qc
  | PInf => NInf
  | NInf => PInf
  | NaN => NaN
  end.

Definition add (x y : float64) : float64 :=
  match x, y with
  | NaN, _ | _, NaN => NaN
  | Fin a, Fin b => Fin (a + b)%Qc
  | PInf, NInf | NInf, PInf => NaN
  | PInf, _ | _, PInf => PInf
  | NInf, _ | _, NInf => NInf
  end.

Definition sub (x y : float64) : float64 := add x (opp y).

Definition mul (x y : float64) : float64 :=
  match x, y with
  | NaN, _ | _, NaN => NaN
  | Fin a, Fin b => Fin (a * b)%Qc
  | _, _ => signed_inf (sgn_mul (sgn x) (sgn y))
  end.

(** Division as numpy performs it on arrays: no exception, [x / 0] is an
    infinity of the sign of [x] and [0 / 0] is NaN. *)
Definition div (x y : float64) : float64 :=
  match x, y with
  | NaN, _ | _, NaN => NaN
  | Fin a, Fin b =>
      if decide (b = Q2Qc 0) then signed_inf (a ?= Q2Qc 0)%Qc
      else Fin (a / b)%Qc
  | Fin _, _ => zero
  | _, Fin b =>
      signed_inf (sgn_mul (sgn x) (if decide (b < Q2Qc 0)%Qc then Lt else Gt))
  | _, _ => NaN
  end.

(** IEEE comparisons: every comparison with NaN is false. *)
Definition eqb (x y : float64) : bool :=
  match x, y with
  | Fin a, Fin b => bool_decide (a = b)
  | PInf, PInf | NInf, NInf => true
  | _, _ => false
  end.

Definition leb (x y : float64) : bool :=
  match x, y with
  | NaN, _ | _, NaN => false
  | NInf, _ | _, PInf => true
  | Fin a, Fin b => bool_decide (a <= b)%Qc
  | _, _ => false
  end.

(** The order numpy sorts by: the IEEE order with NaN after everything. *)
Definition sort_le (x y : float64) : Prop :=
  match x, y with
  | _, NaN => True
  | NaN, _ => False
  | NInf, _ | _, PInf => True
  | Fin a, Fin b => (a <= b)%Qc
  | _, _ => False
  end.

#[global] Instance sort_le_dec : RelDecision sort_le.
Proof. intros [a| | |] [b| | |]; simpl; apply _. Defined.

End F.

#[global] Instance sort_le_refl : Reflexive F.sort_le.
Proof. intros [a| | |]; simpl; [apply Qcle_refl|done..]. Qed.

#[global] Instance sort_le_trans : Transitive F.sort_le.
Proof.
  intros [a| | |] [b| | |] [c| | |]; simpl; try done. apply Qcle_trans.
Qed.

#[global] Instance sort_le_total : Total F.sort_le.
Proof.
  intros [a| | |] [b| | |]; simpl; try tauto.
  destruct (Qclt_le_dec a b) as [Hlt|Hle]; [left; by apply Qclt_le_weak|by right].
Qed.

#[global] Instance sort_le_antisymm : AntiSymm (=) F.sort_le.
Proof.
  intros [a| | |] [b| | |]; simpl; try done.
  intros H1 H2. f_equal. by apply Qcle_antisym.
Qed.

(** A value that is neither NaN nor an infinity. *)
Definition finite (x : float64) : Prop := F.isfinite x = true.

(** A finite value of magnitude at most [2^1022], a quarter of the largest
    binary64 number: the difference of two such values is below [2^1024]
    and does not overflow. *)
Definition moderate (x : float64) : Prop :=
  match x with
  | Fin q =>
      (- Q2Qc (inject_Z (2 ^ 1022)) <= q)%Qc ∧ (q <= Q2Qc (inject_Z (2 ^ 1022)))%Qc
  | _ => False
  end.

(** A least and a greatest element of a sequence, in the IEEE order. *)
Definition is_minimum (lo : float64) (l : list float64) : Prop :=
  lo ∈ l ∧ Forall (λ x, F.leb lo x = true) l.
Definition is_maximum (hi : float64) (l : list float64) : Prop :=
  hi ∈ l ∧ Forall (λ x, F.leb x hi = true) l.

Declare Scope float_scope.
Delimit Scope float_scope with F.
Bind Scope float_scope with float64.
Infix "+" := F.add : float_scope.
Infix "-" := F.sub : float_scope.
Infix "*" := F.mul : float_scope.
Infix "/" := F.div : float_scope.

(** ** numpy on Python values *)

Abbreviation vector := (list float64).
Abbreviation matrix := (list (list float64)).

(** [np.sum] of a one-dimensional array: accumulation from 0. *)
Definition np_sum (a : list float64) : float64 :=
  fold_left F.add a F.zero.

(** [Series.sum()] (what [np.sum] dispatches to on a Series, also the
    row-wise [DataFrame.sum(axis=1)]): NaN entries are skipped. *)
Definition pd_sum (a : list float64) : float64 :=
  np_sum (filter (λ x, F.isnan x = false) a).

(** [np.dot] of a matrix and a vector of matching length. *)
Definition dot_row (row v : list float64) : float64 :=
  np_sum (zip_with F.mul row v).

Definition mat_vec (m : matrix) (v : vector) : vector :=
  fmap (λ row, dot_row row v) m.

(** [np.identity(n)]. *)
Definition identity (n : nat) : matrix :=
  fmap (λ i, fmap (λ j, if decide (i = j) then F.one else F.zero) (seq 0 n))
      (seq 0 n).

(** An [n] by [n] array. *)
Definition square (n : nat) (m : matrix) : Prop :=
  length m = n ∧ Forall (λ row, length row = n) m.

#[global] Instance square_dec n m : Decision (square n m).
Proof. unfold square. apply _. Defined.

(** ** Exceptions and outcomes *)

Inductive Exn : Type :=
  | AssertionError (msg : string)
  | ValueError (msg : string)
  | KeyError (key : string)
  | IndexError (msg : string)
  | TypeError (msg : string)
  | LinAlgError (msg : string)
  | FileNotFoundError (path : string).

Inductive outcome (A : Type) : Type :=
  | Raise (e : Exn)
  | Return (a : A).
Arguments Raise {A} e.
Arguments Return {A} a.

#[global] Instance outcome_ret : MRet outcome := @Return.
#[global] Instance outcome_bind : MBind outcome := λ A B f m,
  match m with
  | Raise e => Raise e
  | Return a => f a
  end.

#[global] Instance outcome_fmap : FMap outcome := λ A B f m,
  match m with
  | Raise e => Raise e
  | Return a => Return (f a)
  end.

(** ** The input table *)

(** One data row of the parsed CSV: column 0 holds the row label, the other
    columns hold numbers; [cells] starts at column 1. *)
Record Row : Type := mkRow { label : string; cells : list float64 }.

(** A [pandas.DataFrame] as [pd.read_csv] returns it: the header and the
    data rows. *)
Record DataFrame : Type := mkDataFrame { columns : list string; rows : list Row }.

(** ** The numpy interface *)

Class NumPy : Type := {
  (** state of the global generator behind [np.random] *)
  RandomState : Type;
  (** [RandomState.permutation(n)]: a shuffled [np.arange(n)] *)
  permutation : RandomState → nat → list nat * RandomState;
  permutation_Permutation g n : (permutation g n).1 ≡ₚ seq 0 n;
  (** [np.linalg.inv]; [None] is [LinAlgError("Singular matrix")] *)
  linalg_inv : matrix → option matrix;
  linalg_inv_square n m l : square n m → linalg_inv m = Some l → square n l;
  (** [np.sqrt] *)
  np_sqrt : float64 → float64;
  (** [np.quantile] of an empty array: NaN in some releases of numpy, an
      [IndexError] in others *)
  quantile_empty : outcome float64
}.

(** ** Objects, heap and world *)

Definition loc := nat.

Inductive object : Type :=
  | Series (v : vector)
  | Ndarray (m : matrix)
  | Dict (d : gmap string (list float64)).

#[global] Instance object_eq_dec : EqDecision object.
Proof. solve_decision. Defined.

(** ** The matplotlib interface *)

Class PyPlot : Type := {
  (** the exception [Axes.hist] raises on data it cannot bin, if any *)
  hist_error : list float64 → option Exn
}.

(** ** Output *)

(** An argument of [print]. *)
Inductive print_arg : Type :=
  | Text (s : string)
  | Number (x : float64).

(** What a run shows to its user, in order: a printed line, or a call to
    matplotlib with its arguments. *)
Inductive event : Type :=
  | Printed (args : list print_arg)
  | Plt_subplots (nrows ncols : nat) (squeeze : bool)
  | Ax_hist (x : list float64) (bins : nat) (rwidth : float64) (lbl : string)
  | Ax_set_title (s : string)
  | Ax_set_xlabel (s : string)
  | Ax_set_ylabel (s : string)
  | Ax_legend
  | Plt_tight_layout
  | Plt_savefig (fname : string) (dpi : nat)
  | Plt_show.

Definition printed (e : event) : bool :=
  match e with Printed _ => true | _ => false end.

(** A computation that talks to the outside: the events it emitted and how
    it ended.  The events emitted before an exception stay emitted. *)
Definition IO (A : Type) : Type := list event * outcome A.

#[global] Instance IO_ret : MRet IO := λ A a, ([], Return a).
#[global] Instance IO_bind : MBind IO := λ A B f m,
  match m with
  | (es, Raise e) => (es, Raise e)
  | (es, Return a) => let '(es', o) := f a in (es ++ es', o)
  end.

Definition emit (e : event) : IO unit := ([e], Return ()).
Definition io_lift {A} (o : outcome A) : IO A := ([], o).

(** The string of one line feed, Python's ["\n"]. *)
Definition newline : string :=
  String (Ascii.Ascii false true false true false false false false) "".

Section Model.
Context `{NumPy}.

Record World : Type := mkWorld {
  heap : list object;
  rng : RandomState;
  files : gmap string DataFrame
}.

Definition set_heap (h : list object) (w : World) : World :=
  mkWorld h (rng w) (files w).
Definition set_rng (g : RandomState) (w : World) : World :=
  mkWorld (heap w) g (files w).

(** A computation runs in a world and ends in an outcome and a world. *)
Definition M (A : Type) : Type := World → outcome A * World.

#[global] Instance M_ret : MRet M := λ A a w, (Return a, w).
#[global] Instance M_bind : MBind M := λ A B f m w,
  match m w with
  | (Raise e, w') => (Raise e, w')
  | (Return a, w') => f a w'
  end.

Definition raise {A} (e : Exn) : M A := λ w, (Raise e, w).
Definition lift {A} (o : outcome A) : M A := λ w, (o, w).

(** [for x in xs: acc = body acc x] *)
Fixpoint for_each {A B} (xs : list A) (acc : B) (body : B → A → M B) : M B :=
  match xs with
  | [] => mret acc
  | x :: xs' => acc' ← body acc x; for_each xs' acc' body
  end.

(** *** Heap operations *)

Definition alloc (o : object) : M loc := λ w,
  (Return (length (heap w)), set_heap (heap w ++ [o]) w).

Definition read_series (l : loc) : M vector := λ w,
  match heap w !! l with
  | Some (Series v) => (Return v, w)
  | _ => (Raise (TypeError "not a Series"), w)
  end.

Definition read_ndarray (l : loc) : M matrix := λ w,
  match heap w !! l with
  | Some (Ndarray m) => (Return m, w)
  | _ => (Raise (TypeError "not an ndarray"), w)
  end.

(** [Series.copy()]: a new object with the same values. *)
Definition series_copy (l : loc) : M loc :=
  v ← read_series l; alloc (Series v).

(** [s[i]] on a Series indexed 0, 1, ...: a missing label is a KeyError. *)
Definition series_getitem (l : loc) (i : nat) : M float64 :=
  v ← read_series l;
  match v !! i with
  | Some x => mret x
  | None => raise (KeyError (pretty i))
  end.

(** [s[i] = x]: writes into the object at [l], in place. *)
Definition series_setitem (l : loc) (i : nat) (x : float64) : M unit := λ w,
  match heap w !! l with
  | Some (Series v) => (Return (), set_heap (<[l := Series (<[i := x]> v)]> (heap w)) w)
  | _ => (Raise (TypeError "not a Series"), w)
  end.

(** [np.dot(matrix, vector)] on the objects at two locations; the product
    is a new array, returned by value. *)
Definition np_dot (lm lv : loc) : M vector :=
  m ← read_ndarray lm;
  v ← read_series lv;
  if decide (Forall (λ row, length row = length v) m)
  then mret (mat_vec m v)
  else raise (ValueError "shapes not aligned").

(** *** Random sampling *)

(** [np.random.choice(np.arange(pop_size), replace=False, size=size)]:
    the two size checks, then the first [size] entries of a permutation. *)
Definition random_choice (pop_size : nat) (size : Z) : M (list nat) := λ w,
  if decide (Z.of_nat pop_size < size)%Z then
    (Raise (ValueError "Cannot take a larger sample than population when 'replace=False'"), w)
  else if decide (size < 0)%Z then
    (Raise (ValueError "negative dimensions are not allowed"), w)
  else
    let '(idx, g) := permutation (rng w) pop_size in
    (Return (take (Z.to_nat size) idx), set_rng g w).

(** *** Statistics *)

Definition np_mean (a : list float64) : float64 :=
  (np_sum a / F.of_nat (length a))%F.

Definition np_std (a : list float64) : float64 :=
  let m := np_mean a in
  np_sqrt (np_mean (fmap (λ x, ((x - m) * (x - m))%F) a)).

(** numpy's interpolation between two neighbouring order statistics. *)
Definition lerp (a b : float64) (t : Qc) : float64 :=
  let diff_b_a := (b - a)%F in
  if decide (Q2Qc (1 # 2) <= t)%Qc
  then (b - diff_b_a * Fin (Q2Qc 1 - t)%Qc)%F
  else (a + diff_b_a * Fin t)%F.

Definition virtual_index (n : nat) (q : Qc) : Qc :=
  (Q2Qc (inject_Z (Z.of_nat (n - 1))) * q)%Qc.

Definition previous_index (n : nat) (q : Qc) : nat :=
  Z.to_nat (Qfloor (virtual_index n q)).

Definition gamma (n : nat) (q : Qc) : Qc :=
  (virtual_index n q - Q2Qc (inject_Z (Z.of_nat (previous_index n q))))%Qc.

(** [np.quantile(a, q)], default method (linear), on a non-empty sample:
    sort, locate [q * (n - 1)] between two order statistics, interpolate;
    a sample that contains NaN has quantile NaN. *)
Definition quantile_linear (a : list float64) (q : Qc) : float64 :=
  let arr := merge_sort F.sort_le a in
  let n := length a in
  let i := previous_index n q in
  let j := Nat.min (S i) (n - 1) in
  if existsb F.isnan a then NaN
  else lerp (arr !!! i) (arr !!! j) (gamma n q).

Definition np_quantile (a : list float64) (q : Qc) : outcome float64 :=
  match a with
  | [] => quantile_empty
  | _ => Return (quantile_linear a q)
  end.

(** ** class Leontief_Model *)

(** The attributes of an instance: arrays and Series are references into
    the heap, the two totals are numbers. *)
Record Leontief_Model : Type := mkLeontief_Model {
  df : DataFrame;
  io_matrix : loc;
  demand : loc;
  output : loc;
  A : loc;
  I_minus_A : loc;
  leontief_inverse : loc;
  total_output : float64;
  total_final_demand : float64
}.

Definition read_csv (path : string) : M DataFrame := λ w,
  match files w !! path with
  | Some d => (Return d, w)
  | None => (Raise (FileNotFoundError path), w)
  end.

(** [df.iloc[0:3195,0]] and [df.columns[1:3196]] *)
Definition row_labels (d : DataFrame) : list string :=
  label <$> take 3195 (rows d).
Definition column_labels (d : DataFrame) : list string :=
  take 3195 (drop 1 (columns d)).

(** [(a == b).all()]: pandas refuses to compare different lengths. *)
Definition labels_all_equal (a b : list string) : outcome bool :=
  if decide (length a = length b) then Return (bool_decide (a = b))
  else Raise (ValueError "Lengths must match to compare").

(** [df.iloc[0:3195,1:3196]] as an array *)
Definition extract_io_matrix (d : DataFrame) : matrix :=
  fmap (λ r, take 3195 (cells r)) (take 3195 (rows d)).

(** [df.iloc[0:3195,3196:3598].sum(axis=1, numeric_only=True)] *)
Definition extract_demand (d : DataFrame) : vector :=
  fmap (λ r, pd_sum (take 402 (drop 3195 (cells r)))) (take 3195 (rows d)).

(** [df.iloc[0:3195,3598]]: the position is checked against the columns of
    the frame, so a frame without column 3598 is refused also when it has
    no data rows; then the cell of each row is taken. *)
Definition extract_output (d : DataFrame) : outcome vector :=
  if decide (3598 < length (columns d)) then
    match mapM (λ r, cells r !! 3597) (take 3195 (rows d)) with
    | Some v => Return v
    | None => Raise (IndexError "single positional indexer is out-of-bounds")
    end
  else Raise (IndexError "single positional indexer is out-of-bounds").

(** [np.divide(io_matrix, output)]: the vector is laid along every row, so
    entry [i,j] is divided by [output[j]].  (Arrays with an axis of size 1,
    which numpy would stretch, are not modelled: they are a shape error.) *)
Definition np_divide (m : matrix) (v : vector) : outcome matrix :=
  if decide (Forall (λ row, length row = length v) m)
  then Return (fmap (λ row, zip_with F.div row v) m)
  else Raise (ValueError "operands could not be broadcast together").

(** The value written by [a[np.isnan(a)] = 0]. *)
Definition nan_to_zero (m : matrix) : matrix :=
  fmap (M := list) (fmap (M := list) (λ x, if F.isnan x then F.zero else x)) m.

(** [a[np.isnan(a)] = 0] on the array at [l], in place. *)
Definition ndarray_fill_nan (l : loc) : M unit := λ w,
  match heap w !! l with
  | Some (Ndarray m) => (Return (), set_heap (<[l := Ndarray (nan_to_zero m)]> (heap w)) w)
  | _ => (Raise (TypeError "not an ndarray"), w)
  end.

(** Lines 56-57: the coefficient matrix, as a value. *)
Definition coefficient_matrix (io : matrix) (out : vector) : outcome matrix :=
  nan_to_zero <$> np_divide io out.

(** [np.identity(3195) - a] *)
Definition identity_minus (a : matrix) : outcome matrix :=
  if decide (square 3195 a)
  then Return (zip_with (zip_with F.sub) (identity 3195) a)
  else Raise (ValueError "operands could not be broadcast together").

Definition np_linalg_inv (m : matrix) : outcome matrix :=
  match linalg_inv m with
  | Some l => Return l
  | None => Raise (LinAlgError "Singular matrix")
  end.

Definition Leontief_Model___init__ : M Leontief_Model :=
  d ← read_csv "ICIO2021_2018.csv";
  ok ← lift (labels_all_equal (row_labels d) (column_labels d));
  (if ok : bool then mret () else raise (AssertionError ""));;
  l_io ← alloc (Ndarray (extract_io_matrix d));
  l_demand ← alloc (Series (extract_demand d));
  out ← lift (extract_output d);
  l_output ← alloc (Series out);
  io ← read_ndarray l_io;
  out' ← read_series l_output;
  a ← lift (np_divide io out');
  l_A ← alloc (Ndarray a);
  ndarray_fill_nan l_A;;
  a' ← read_ndarray l_A;
  ia ← lift (identity_minus a');
  l_IA ← alloc (Ndarray ia);
  inv ← lift (np_linalg_inv ia);
  l_inv ← alloc (Ndarray inv);
  out'' ← read_series l_output;
  dem ← read_series l_demand;
  mret (mkLeontief_Model d l_io l_demand l_output l_A l_IA l_inv
          (pd_sum out'') (pd_sum dem)).

(** The dictionary [shock] returns. *)
Record result_dict : Type := mkResult {
  Shock_effect_data : list float64;
  Average : float64;
  Standard_deviation : float64;
  Median : float64;
  Upper_5_quantile : float64;
  Upper_1_quantile : float64
}.

(** Lines 139-144. *)
Definition statistics (shock_effects : list float64) : outcome result_dict :=
  let average := np_mean shock_effects in
  let std := np_std shock_effects in
  median ← np_quantile shock_effects (Q2Qc (5 # 10));
  upper5 ← np_quantile shock_effects (Q2Qc (95 # 100));
  upper1 ← np_quantile shock_effects (Q2Qc (99 # 100));
  mret (mkResult shock_effects average std median upper5 upper1).

(** Lines 115-124: the data the experiment works on. *)
Definition shock_select (self : Leontief_Model) (shock_type : string)
    : M (loc * loc * float64) :=
  if decide (shock_type = "Demand") then
    mret (leontief_inverse self, demand self, total_output self)
  else if decide (shock_type = "Supply") then
    mret (I_minus_A self, output self, total_final_demand self)
  else raise (AssertionError ("Unknown shock type " +:+ shock_type)).

(** Lines 132-136: the body of the loop over the sampled sectors. *)
Definition shock_iteration (matrix vector : loc) (benchmark shock_size : float64)
    (shock_effects : list float64) (sec : nat) : M (list float64) :=
  mod_vector ← series_copy vector;
  x ← series_getitem mod_vector sec;
  series_setitem mod_vector sec (x * (F.one - shock_size))%F;;
  result ← np_dot matrix mod_vector;
  let effect := (F.one - np_sum result / benchmark)%F in
  mret (shock_effects ++ [effect]).

Definition shock (self : Leontief_Model)
    (shock_type : string) (shock_size : float64) (sample_size : Z) : M result_dict :=
  '(matrix, vector, benchmark) ← shock_select self shock_type;
  sectors ← random_choice 3195 sample_size;
  shock_effects ← for_each sectors []
                    (shock_iteration matrix vector benchmark shock_size);
  lift (statistics shock_effects).

(** Default arguments of [shock]. *)
Definition default_shock_type : string := "Demand".
Definition default_shock_size : float64 := F.of_Q (3 # 10).
Definition default_sample_size : Z := 300.

(** ** class ReproducibleResult *)

Record ReproducibleResult : Type := mkReproducibleResult {
  number_of_replications : Z;
  shock_sizes : list float64;
  return_result : loc
}.

Definition ReproducibleResult___init__ (number_of_replications : Z)
    : M ReproducibleResult :=
  d ← alloc (Dict {[ "for_30%_shock_size" := [];
                     "for_70%_shock_size" := [];
                     "for_100%_shock_size" := [] ]});
  mret (mkReproducibleResult number_of_replications
          [F.of_Q (3 # 10); F.of_Q (7 # 10); F.of_Q 1] d).

Definition default_number_of_replications : Z := 20.

(** [xs[i]] on a Python list *)
Definition list_getitem {X} (xs : list X) (i : nat) : M X :=
  match xs !! i with
  | Some x => mret x
  | None => raise (IndexError "list index out of range")
  end.

(** [d[key].append(x)] on the dictionary at [l], in place. *)
Definition dict_append (l : loc) (key : string) (x : float64) : M unit := λ w,
  match heap w !! l with
  | Some (Dict d) =>
      match d !! key with
      | Some xs => (Return (), set_heap (<[l := Dict (<[key := xs ++ [x]]> d)]> (heap w)) w)
      | None => (Raise (KeyError key), w)
      end
  | _ => (Raise (TypeError "not a dict"), w)
  end.

(** [range(n)] *)
Definition range (n : Z) : list nat := seq 0 (Z.to_nat n).

(** Lines 192-199: one replication. *)
Definition run_replication (self : ReproducibleResult) (shock_size : float64)
    : M unit :=
  L ← Leontief_Model___init__;
  demand_shock_effects ← shock L default_shock_type shock_size default_sample_size;
  s0 ← list_getitem (shock_sizes self) 0;
  if F.eqb shock_size s0 then
    dict_append (return_result self) "for_30%_shock_size"
      (Upper_1_quantile demand_shock_effects)
  else
    s1 ← list_getitem (shock_sizes self) 1;
    if F.eqb shock_size s1 then
      dict_append (return_result self) "for_70%_shock_size"
        (Upper_1_quantile demand_shock_effects)
    else
      dict_append (return_result self) "for_100%_shock_size"
        (Upper_1_quantile demand_shock_effects).

Definition run (self : ReproducibleResult) : M loc :=
  for_each (shock_sizes self) () (λ _ shock_size,
    for_each (range (number_of_replications self)) () (λ _ replication,
      run_replication self shock_size));;
  mret (return_result self).

Context `{PyPlot}.

(** [d[key]] on the dictionary at [l] *)
Definition dict_getitem (w : World) (l : loc) (key : string)
    : outcome (list float64) :=
  match heap w !! l with
  | Some (Dict d) =>
      match d !! key with
      | Some xs => Return xs
      | None => Raise (KeyError key)
      end
  | _ => Raise (TypeError "not a dict")
  end.

(** One of the lines 213-215: the list is looked up for the mean and again
    for the standard deviation, then the line is printed. *)
Definition print_effect (w : World) (self : ReproducibleResult)
    (text key : string) : IO unit :=
  xs ← io_lift (dict_getitem w (return_result self) key);
  ys ← io_lift (dict_getitem w (return_result self) key);
  emit (Printed [Text text; Number (np_mean xs); Text "+/-"; Number (np_std ys)]).

(** One of the lines 219-221. *)
Definition ax_hist (w : World) (self : ReproducibleResult)
    (key lbl : string) : IO unit :=
  x ← io_lift (dict_getitem w (return_result self) key);
  match hist_error x with
  | Some e => io_lift (Raise e)
  | None => emit (Ax_hist x 15 (F.of_Q (85 # 100)) lbl)
  end.

Definition analyze_result (self : ReproducibleResult) (show_plot : bool)
    (w : World) : IO unit :=
  print_effect w self
    "Effect of demand shocks by 30%  for the upper 1% quantile = "
    "for_30%_shock_size";;
  print_effect w self
    (newline +:+ "Effect of demand shocks by 70%  for the upper 1% quantile = ")
    "for_70%_shock_size";;
  print_effect w self
    (newline +:+ "Effect of demand shocks by 100%  for the upper 1% quantile = ")
    "for_100%_shock_size";;
  if show_plot then
    emit (Plt_subplots 1 1 false);;
    ax_hist w self "for_30%_shock_size" "30% shock size";;
    ax_hist w self "for_70%_shock_size" "70% shock size";;
    ax_hist w self "for_100%_shock_size" "100% shock size";;
    emit (Ax_set_title "Effect of different shock_sizes on upper 1% quantile");;
    emit (Ax_set_xlabel "Effect of different shock size");;
    emit (Ax_set_ylabel "Frequency");;
    emit Ax_legend;;
    emit Plt_tight_layout;;
    emit (Plt_savefig "Effect of different shock_sizes on upper 1% quantile.png" 300);;
    emit Plt_show
  else mret ().

Definition default_show_plot : bool := false.

(** Lines 231-234: the module run as a script. *)
Definition main (w : World) : IO unit * World :=
  match (test ← ReproducibleResult___init__ default_number_of_replications;
         run test;;
         mret test) w with
  | (Raise e, w') => (io_lift (Raise e), w')
  | (Return test, w') => (analyze_result test true w', w')
  end.

(** ** Vocabulary of the statements *)

(** The vector of one iteration: entry [sec] scaled by [1 - shock_size]. *)
Definition shocked (v : vector) (shock_size : float64) (sec : nat) : vector :=
  <[sec := (v !!! sec * (F.one - shock_size))%F]> v.

(** The effect of one iteration. *)
Definition effect_of (m : matrix) (v : vector) (benchmark shock_size : float64)
    (sec : nat) : float64 :=
  (F.one - np_sum (mat_vec m (shocked v shock_size sec)) / benchmark)%F.

(** The effect computed from the unmodified vector. *)
Definition baseline (m : matrix) (v : vector) (benchmark : float64) : float64 :=
  (F.one - np_sum (mat_vec m v) / benchmark)%F.

(** The sectors [shock] draws in a given state of the generator, and the
    state it leaves the generator in. *)
Definition drawn (g : RandomState) (sample_size : Z) : list nat :=
  take (Z.to_nat sample_size) (permutation g 3195).1.
Definition after_draw (g : RandomState) : RandomState :=
  (permutation g 3195).2.

(** The content of a model: the values behind its attributes. *)
Record model_data : Type := mkModelData {
  md_io : matrix;
  md_demand : vector;
  md_output : vector;
  md_A : matrix;
  md_I_minus_A : matrix;
  md_leontief_inverse : matrix;
}.

(** The constructor as a function of the table. *)
Definition model_of_table (d : DataFrame) : outcome model_data :=
  ok ← labels_all_equal (row_labels d) (column_labels d);
  (if ok : bool then Return () else Raise (AssertionError ""));;
  out ← extract_output d;
  a ← coefficient_matrix (extract_io_matrix d) out;
  ia ← identity_minus a;
  inv ← np_linalg_inv ia;
  Return (mkModelData (extract_io_matrix d) (extract_demand d) out a ia inv).

(** The six objects a constructed model owns, and the model whose
    attributes refer to them when they are stored from location [base]. *)
Definition objects_of (md : model_data) : list object :=
  [Ndarray (md_io md); Series (md_demand md); Series (md_output md);
   Ndarray (md_A md); Ndarray (md_I_minus_A md);
   Ndarray (md_leontief_inverse md)].

Definition model_at (base : nat) (d : DataFrame) (md : model_data) : Leontief_Model :=
  mkLeontief_Model d base (base + 1) (base + 2) (base + 3) (base + 4) (base + 5)
    (pd_sum (md_output md)) (pd_sum (md_demand md)).

(** [self] is a model with content [md] in the world [w]. *)
Record holds (w : World) (self : Leontief_Model) (md : model_data) : Prop := {
  holds_io : heap w !! io_matrix self = Some (Ndarray (md_io md));
  holds_demand : heap w !! demand self = Some (Series (md_demand md));
  holds_output : heap w !! output self = Some (Series (md_output md));
  holds_A : heap w !! A self = Some (Ndarray (md_A md));
  holds_I_minus_A : heap w !! I_minus_A self = Some (Ndarray (md_I_minus_A md));
  holds_inverse :
    heap w !! leontief_inverse self = Some (Ndarray (md_leontief_inverse md));
  holds_total_output : total_output self = pd_sum (md_output md);
  holds_total_final_demand : total_final_demand self = pd_sum (md_demand md)
}.

(** The shapes the constructor guarantees. *)
Record prepared (md : model_data) : Prop := {
  prepared_demand : length (md_demand md) = 3195;
  prepared_output : length (md_output md) = 3195;
  prepared_A : square 3195 (md_A md);
  prepared_I_minus_A : square 3195 (md_I_minus_A md);
  prepared_inverse : square 3195 (md_leontief_inverse md)
}.

(** The state of a model that a caller can observe. *)
Definition model_state (w : World) (self : Leontief_Model)
    : list (option object) * (float64 * float64) :=
  ([heap w !! io_matrix self; heap w !! demand self; heap w !! output self;
    heap w !! A self; heap w !! I_minus_A self; heap w !! leontief_inverse self],
   (total_output self, total_final_demand self)).

(** The world after an experiment: the copies made by the loop are new
    objects, the generator has moved on. *)
Definition after_shock (w : World) (v : vector) (shock_size : float64)
    (sample_size : Z) : World :=
  mkWorld
    (heap w ++ fmap (λ sec, Series (shocked v shock_size sec))
                   (drawn (rng w) sample_size))
    (after_draw (rng w)) (files w).

(** [w'] is [w] with new objects added and, possibly, the generator moved. *)
Definition grown (w w' : World) : Prop :=
  (∃ ext, heap w' = heap w ++ ext) ∧ files w' = files w.

(** The effects of a demand or supply experiment on [md]. *)
Definition effects_of (md : model_data) (shock_type : string)
    (shock_size : float64) (sectors : list nat) : list float64 :=
  if decide (shock_type = "Demand") then
    fmap (effect_of (md_leontief_inverse md) (md_demand md)
           (pd_sum (md_output md)) shock_size) sectors
  else
    fmap (effect_of (md_I_minus_A md) (md_output md)
           (pd_sum (md_demand md)) shock_size) sectors.

(** The entries of the result dictionary of an aggregator. *)
Definition results (a b c : list float64) : gmap string (list float64) :=
  {[ "for_30%_shock_size" := a;
     "for_70%_shock_size" := b;
     "for_100%_shock_size" := c ]}.

(** The shock sizes the constructor configures. *)
Definition configured_sizes : list float64 :=
  [F.of_Q (3 # 10); F.of_Q (7 # 10); F.of_Q 1].

(** The statistic one replication contributes: the 99th percentile of the
    effects of a demand experiment with the default sample size, run on
    [md] when the generator is in state [g]. *)
Definition replication_statistic (md : model_data) (shock_size : float64)
    (g : RandomState) : float64 :=
  quantile_linear
    (effects_of md default_shock_type shock_size (drawn g default_sample_size))
    (Q2Qc (99 # 100)).

(** The statistics of [n] replications in a row, the first one run in
    state [g], each next one in the state the previous draw left. *)
Definition replications (md : model_data) (shock_size : float64)
    (g : RandomState) (n : nat) : list float64 :=
  (λ i, replication_statistic md shock_size (Nat.iter i after_draw g)) <$> seq 0 n.

(** The entries of the dictionary after some values were appended under the
    key that [run] selects for [shock_size]. *)
Definition appended (shock_size : float64) (es a b c : list float64)
    : gmap string (list float64) :=
  if F.eqb shock_size (F.of_Q (3 # 10)) then results (a ++ es) b c
  else if F.eqb shock_size (F.of_Q (7 # 10)) then results a (b ++ es) c
  else results a b (c ++ es).

(** [k] calls of [run] on the same instance, one after the other. *)
Fixpoint run_times (k : nat) (self : ReproducibleResult) : M unit :=
  match k with
  | 0 => mret ()
  | S k' => run self;; run_times k' self
  end.


(** [w'] is [w] but for values appended to the lists of the dictionary at
    [l] and for new objects. *)
Definition appends_to (l : loc) (w w' : World) : Prop :=
  files w' = files w ∧
  length (heap w) ≤ length (heap w') ∧
  (∀ l', l' < length (heap w) → l' ≠ l → heap w' !! l' = heap w !! l') ∧
  (∀ d, heap w !! l = Some (Dict d) →
     ∃ d', heap w' !! l = Some (Dict d') ∧
       ∀ key, match d !! key with
              | Some xs => ∃ ys, d' !! key = Some (xs ++ ys)
              | None => d' !! key = None
              end).

(** The three lines [analyze_result] prints for the lists [a], [b], [c]. *)
Definition report (a b c : list float64) : list event :=
  [Printed [Text "Effect of demand shocks by 30%  for the upper 1% quantile = ";
            Number (np_mean a); Text "+/-"; Number (np_std a)];
   Printed [Text (newline +:+ "Effect of demand shocks by 70%  for the upper 1% quantile = ");
            Number (np_mean b); Text "+/-"; Number (np_std b)];
   Printed [Text (newline +:+ "Effect of demand shocks by 100%  for the upper 1% quantile = ");
            Number (np_mean c); Text "+/-"; Number (np_std c)]].

(** The calls that draw and show the figure of the lists [a], [b], [c]. *)
Definition figure (a b c : list float64) : list event :=
  [Plt_subplots 1 1 false;
   Ax_hist a 15 (F.of_Q (85 # 100)) "30% shock size";
   Ax_hist b 15 (F.of_Q (85 # 100)) "70% shock size";
   Ax_hist c 15 (F.of_Q (85 # 100)) "100% shock size";
   Ax_set_title "Effect of different shock_sizes on upper 1% quantile";
   Ax_set_xlabel "Effect of different shock size";
   Ax_set_ylabel "Frequency";
   Ax_legend;
   Plt_tight_layout;
   Plt_savefig "Effect of different shock_sizes on upper 1% quantile.png" 300;
   Plt_show].

End Model.

(** ** A stand-in for numpy and sample tables

    The properties below hold for every implementation of [NumPy].  To run
    the model on concrete inputs this stand-in is used: the generator is a
    counter whose [k]-th permutation is [0 .. n-1] rotated by [k]; the
    inverse is known for the identity matrix (every other matrix is
    reported singular); the square root is taken on numerator and
    denominator; the quantile of an empty sample is NaN. *)

Definition rotating_permutation (g n : nat) : list nat * nat :=
  (rotate g (seq 0 n), S g).

Definition inv_of_identity (m : matrix) : option matrix :=
  if decide (m = identity (length m)) then Some m else None.

Definition sqrt_stand_in (x : float64) : float64 :=
  match x with
  | Fin q =>
      if decide (q < Q2Qc 0)%Qc then NaN
      else F.of_Q (Z.sqrt (Qnum q) # Pos.sqrt (Qden q))
  | PInf => PInf
  | _ => NaN
  end.

#[export] Instance stand_in : NumPy.
Proof.
  refine {| RandomState := nat;
            permutation := rotating_permutation;
            linalg_inv := inv_of_identity;
            np_sqrt := sqrt_stand_in;
            quantile_empty := Return NaN |}.
  - intros g n. unfold rotating_permutation, rotate. simpl.
    rewrite Permutation_app_comm. by rewrite take_drop.
  - intros n m l Hm. unfold inv_of_identity.
    case_decide; [|done]. by intros [= <-].
Defined.

(** A matplotlib that bins whatever it is given. *)
#[export] Instance plot_stand_in : PyPlot := {| hist_error := λ _, None |}.

(** Sector labels [S0], [S1], ... *)
Definition sector_names : list string :=
  fmap (λ i, "S" +:+ pretty i) (seq 0 3195).

(** A table in the ICIO layout in which every intermediate flow is [flow],
    every final-demand cell is [fd] and every total output is [out]. *)
Definition uniform_table (flow fd out : float64) : DataFrame :=
  mkDataFrame
    ("" :: sector_names ++ replicate 402 "FD" ++ ["TOTAL"])
    (fmap (λ name, mkRow name (replicate 3195 flow ++ replicate 402 fd ++ [out]))
         sector_names).

(** The content of the model built from a uniform table without
    intermediate flows: [A] is zero, so [I - A] and its inverse are the
    identity. *)
Definition zero_matrix : matrix := replicate 3195 (replicate 3195 F.zero).

Definition uniform_model (fd out : float64) : model_data :=
  mkModelData zero_matrix (replicate 3195 (pd_sum (replicate 402 fd)))
    (replicate 3195 out) zero_matrix (identity 3195) (identity 3195).

(** A world with an empty heap whose working directory holds the table. *)
Definition world_with (d : DataFrame) : World :=
  mkWorld [] 0 {[ "ICIO2021_2018.csv" := d ]}.

(** The sample economy: 3195 sectors that sell nothing to each other, each
    with a final demand of 402 (1 in each of the 402 final-demand columns)
    and a recorded total output of 804. *)
Definition sample_table : DataFrame :=
  uniform_table F.zero F.one (Fin (Q2Qc 804)).
Definition sample_content : model_data :=
  uniform_model F.one (Fin (Q2Qc 804)).
Definition sample_model : Leontief_Model := model_at 0 sample_table sample_content.
Definition sample_world : World :=
  mkWorld (objects_of sample_content) 0 {[ "ICIO2021_2018.csv" := sample_table ]}.

(** The idle economy: the same layout with every cell 0. *)
Definition idle_table : DataFrame := uniform_table F.zero F.zero F.zero.
Definition idle_content : model_data := uniform_model F.zero F.zero.
Definition idle_model : Leontief_Model := model_at 0 idle_table idle_content.
Definition idle_world : World :=
  mkWorld (objects_of idle_content) 0 {[ "ICIO2021_2018.csv" := idle_table ]}.


(** A table of one row whose label is not the label of its column. *)
Definition misaligned_table : DataFrame :=
  mkDataFrame [""; "AUS_01T02"] [mkRow "AUT_01T02" [F.zero]].

(** An aggregator whose dictionary is the object at location 0, in a world
    that holds this dictionary only and has no file in the working
    directory. *)
Definition aggregator (r : Z) : ReproducibleResult :=
  mkReproducibleResult r [F.of_Q (3 # 10); F.of_Q (7 # 10); F.of_Q 1] 0.
Definition aggregator_world : World :=
  mkWorld [Dict {[ "for_30%_shock_size" := [];
                   "for_70%_shock_size" := [];
                   "for_100%_shock_size" := [] ]}] 0 ∅.

(** The same dictionary in a world whose working directory holds the
    sample table. *)
Definition sample_aggregator_world : World :=
  mkWorld [Dict {[ "for_30%_shock_size" := [];
                   "for_70%_shock_size" := [];
                   "for_100%_shock_size" := [] ]}] 0
    {[ "ICIO2021_2018.csv" := sample_table ]}.

(** A model of two sectors written down by hand, to run [shock] on:
    [A = [[0, 1/2], [0, 0]]], so [I - A = [[1, -1/2], [0, 1]]] with inverse
    [[1, 1/2], [0, 1]]]; final demand [1, 2], total output [2, 2].  The
    stand-in's first permutation starts 0, 1, so a sample of two sectors
    stays inside the model. *)
Definition two_sector_content : model_data :=
  mkModelData
    [[F.zero; F.of_Q 1]; [F.zero; F.zero]]
    [F.of_Q 1; F.of_Q 2]
    [F.of_Q 2; F.of_Q 2]
    [[F.zero; F.of_Q (1 # 2)]; [F.zero; F.zero]]
    [[F.one; F.of_Q (-1 # 2)]; [F.zero; F.one]]
    [[F.one; F.of_Q (1 # 2)]; [F.zero; F.one]].
Definition two_sector_model : Leontief_Model :=
  model_at 0 (mkDataFrame [] []) two_sector_content.
Definition two_sector_world : World :=
  mkWorld (objects_of two_sector_content) 0 ∅.

(** What a test would print of a result: the effects, the mean, the median
    and the 99th percentile, as rationals. *)
Definition summary (o : outcome result_dict)
    : option (list (option Q) * option Q * option Q * option Q) :=
  match o with
  | Return r =>
      Some (F.to_Q <$> Shock_effect_data r, F.to_Q (Average r),
            F.to_Q (Median r), F.to_Q (Upper_1_quantile r))
  | Raise _ => None
  end.

(** ** Statements of the specification that the code does not satisfy *)

(** "With shock size 0 every sampled effect is exactly 0, for both types." *)
Definition no_shock_no_effect : Prop :=
  ∀ (np : NumPy) (w0 w w' : World) self shock_type (k : Z) r,
    Leontief_Model___init__ w0 = (Return self, w) →
    shock_type = "Demand" ∨ shock_type = "Supply" →
    (1 ≤ k ≤ 3195)%Z →
    shock self shock_type F.zero k w = (Return r, w') →
    Forall (λ effect, effect = F.zero) (Shock_effect_data r).

(** "A is the quotient wherever the total output is not zero, is 0 where
    the total output is zero, and holds no NaN or Inf", for a table of
    finite numbers that passes the constructor's checks. *)
Definition coefficients_always_finite : Prop :=
  ∀ (d : DataFrame) (out : vector) (a : matrix),
    labels_all_equal (row_labels d) (column_labels d) = Return true →
    extract_output d = Return out →
    Forall (Forall finite) (extract_io_matrix d) →
    Forall finite out →
    coefficient_matrix (extract_io_matrix d) out = Return a →
    ∀ i j row arow flow o x,
      extract_io_matrix d !! i = Some row → row !! j = Some flow →
      out !! j = Some o →
      a !! i = Some arow → arow !! j = Some x →
      (o ≠ F.zero → x = (flow / o)%F) ∧
      (o = F.zero → x = F.zero) ∧
      finite x.

(** "The 99th percentile is at least the median, and the median lies
    between the minimum and the maximum of the effects." *)
Definition percentiles_ordered : Prop :=
  ∀ (np : NumPy) (w0 w w' : World) self shock_type shock_size (k : Z) r,
    Leontief_Model___init__ w0 = (Return self, w) →
    shock_type = "Demand" ∨ shock_type = "Supply" →
    (1 ≤ k ≤ 3195)%Z →
    shock self shock_type shock_size k w = (Return r, w') →
    F.leb (Median r) (Upper_1_quantile r) = true ∧
    ∀ lo hi,
      is_minimum lo (Shock_effect_data r) → is_maximum hi (Shock_effect_data r) →
      F.leb lo (Median r) = true ∧ F.leb (Median r) hi = true.

(** "A sample size outside [1, 3195] fails with the sample-size error and
    aborts before any sampling, with no partial result." *)
Definition sample_size_validated : Prop :=
  ∀ (np : NumPy) (w0 w : World) self shock_type shock_size (k : Z),
    Leontief_Model___init__ w0 = (Return self, w) →
    shock_type = "Demand" ∨ shock_type = "Supply" →
    (k < 1 ∨ 3195 < k)%Z →
    ∃ e, shock self shock_type shock_size k w = (Raise e, w).

(** * Properties *)

(** ** Arithmetic of float64 *)

Lemma sub_zero_r (x : float64) : (x - F.zero)%F = x.
Proof.
  destruct x as [q| | |]; try done.
  unfold F.sub, F.zero, F.of_Q. simpl. f_equal. ring.
Qed.

Lemma one_minus_zero : (F.one - F.zero)%F = F.one.
Proof. apply sub_zero_r. Qed.

Lemma mul_one_r (x : float64) : (x * F.one)%F = x.
Proof.
  destruct x as [q| | |]; try done.
  unfold F.one, F.of_Q. simpl. f_equal. ring.
Qed.

(** Scaling by [1 - 0] changes nothing, whatever the value. *)
Lemma mul_one_minus_zero (x : float64) : (x * (F.one - F.zero))%F = x.
Proof. by rewrite one_minus_zero, mul_one_r. Qed.

Lemma zero_div_finite (o : Qc) :
  (if F.isnan (F.zero / Fin o)%F then F.zero else (F.zero / Fin o)%F) = F.zero.
Proof.
  unfold F.div, F.zero, F.of_Q. case_decide; [done|].
  simpl. f_equal. unfold Qcdiv. ring.
Qed.

Lemma one_minus_div_self (b : float64) :
  F.isfinite b = true → b ≠ F.zero → (F.one - b / b)%F = F.zero.
Proof.
  destruct b as [q| | |]; try done. intros _ Hq.
  assert (q ≠ Q2Qc 0) as Hq' by (intros ->; by apply Hq).
  unfold F.div. rewrite decide_False by done.
  unfold F.sub, F.one, F.zero, F.of_Q. simpl. f_equal. by field.
Qed.

Lemma fold_add_finite (qs : list Qc) (a : Qc) :
  fold_left F.add (Fin <$> qs) (Fin a) = Fin (fold_left Qcplus qs a).
Proof. revert a. induction qs as [|q qs IH]; intros a; [done|]. simpl. apply IH. Qed.

Lemma np_sum_finite (qs : list Qc) :
  np_sum (Fin <$> qs) = Fin (fold_left Qcplus qs (Q2Qc 0)).
Proof. apply fold_add_finite. Qed.

Lemma fold_plus_replicate (n : nat) (c a : Qc) :
  fold_left Qcplus (replicate n c) a = (a + Q2Qc (inject_Z (Z.of_nat n)) * c)%Qc.
Proof.
  revert a. induction n as [|n IH]; intros a.
  - change (Q2Qc (inject_Z (Z.of_nat 0))) with (Q2Qc 0).
    cbn [replicate fold_left]. ring.
  - cbn [replicate fold_left]. rewrite IH.
    replace (Q2Qc (inject_Z (Z.of_nat (S n))))
      with (Q2Qc (inject_Z (Z.of_nat n)) + Q2Qc 1)%Qc; [ring|].
    apply Qc_is_canon. simpl. rewrite !Qred_correct.
    unfold inject_Z, Qeq, Qplus. simpl. lia.
Qed.

(** The sum of [n] copies of a finite value. *)
Lemma np_sum_replicate (n : nat) (c : Qc) :
  np_sum (replicate n (Fin c)) = Fin (Q2Qc (inject_Z (Z.of_nat n)) * c)%Qc.
Proof.
  rewrite <-fmap_replicate, np_sum_finite, fold_plus_replicate. f_equal. ring.
Qed.

Lemma pd_sum_no_nan (a : list float64) :
  Forall (λ x, F.isnan x = false) a → pd_sum a = np_sum a.
Proof.
  intros Ha. unfold pd_sum. f_equal.
  induction Ha as [|x a Hx _ IH]; [done|].
  rewrite filter_cons_True by done. by rewrite IH.
Qed.

Lemma pd_sum_replicate (n : nat) (c : Qc) :
  pd_sum (replicate n (Fin c)) = Fin (Q2Qc (inject_Z (Z.of_nat n)) * c)%Qc.
Proof.
  rewrite pd_sum_no_nan; [apply np_sum_replicate|].
  by apply Forall_replicate.
Qed.

(** ** The identity matrix *)

Lemma identity_length n : length (identity n) = n.
Proof. unfold identity. by rewrite length_fmap, length_seq. Qed.

Lemma fold_identity_row (qs : list Qc) : ∀ (k i : nat) (a : Qc),
  fold_left F.add
    (zip_with F.mul
       ((λ j, if decide (i = j) then F.one else F.zero) <$> seq k (length qs))
       (Fin <$> qs))
    (Fin a)
  = Fin (a + (if decide (k ≤ i)%nat then default (Q2Qc 0) (qs !! (i - k)%nat)
              else Q2Qc 0))%Qc.
Proof.
  induction qs as [|q qs IH]; intros k i a.
  - simpl. f_equal. case_decide; simpl; ring.
  - cbn [length seq fmap list_fmap zip_with fold_left].
    destruct (decide (i = k)) as [->|Hik].
    + change (Fin a + F.one * Fin q)%F with (Fin (a + Q2Qc 1 * q)%Qc).
      rewrite IH. f_equal.
      rewrite decide_False by lia. rewrite decide_True by lia.
      rewrite Nat.sub_diag. simpl. ring.
    + change (Fin a + F.zero * Fin q)%F with (Fin (a + Q2Qc 0 * q)%Qc).
      rewrite IH. f_equal.
      destruct (decide (S k ≤ i)) as [Hle|Hle].
      * rewrite decide_True by lia.
        replace (i - k) with (S (i - S k)) by lia. simpl. ring.
      * rewrite decide_False by lia. ring.
Qed.

(** The identity matrix maps a vector of finite values to itself. *)
Lemma mat_vec_identity n (qs : list Qc) :
  length qs = n → mat_vec (identity n) (Fin <$> qs) = Fin <$> qs.
Proof.
  intros <-. unfold mat_vec, identity. rewrite <-list_fmap_compose.
  apply list_eq. intros i. rewrite !list_lookup_fmap.
  destruct (decide (i < length qs)) as [Hi|Hi].
  - rewrite lookup_seq_lt by done.
    destruct (lookup_lt_is_Some_2 qs i Hi) as [q Hq]. rewrite Hq. simpl.
    f_equal. unfold dot_row, np_sum, F.zero, F.of_Q.
    rewrite fold_identity_row. rewrite decide_True by lia.
    rewrite Nat.sub_0_r, Hq. simpl. f_equal. ring.
  - rewrite lookup_seq_ge by lia. by rewrite lookup_ge_None_2 by lia.
Qed.

(** ** The result dictionary *)

Lemma results_30 a b c : results a b c !! "for_30%_shock_size" = Some a.
Proof. reflexivity. Qed.
Lemma results_70 a b c : results a b c !! "for_70%_shock_size" = Some b.
Proof. reflexivity. Qed.
Lemma results_100 a b c : results a b c !! "for_100%_shock_size" = Some c.
Proof. reflexivity. Qed.
Lemma results_insert_30 a b c x :
  <[ "for_30%_shock_size" := x ]> (results a b c) = results x b c.
Proof. unfold results. by rewrite insert_insert_eq. Qed.
Lemma results_insert_70 a b c x :
  <[ "for_70%_shock_size" := x ]> (results a b c) = results a x c.
Proof. unfold results. rewrite (insert_insert_ne _ "for_70%_shock_size") by done. by rewrite insert_insert_eq. Qed.
Lemma results_insert_100 a b c x :
  <[ "for_100%_shock_size" := x ]> (results a b c) = results a b x.
Proof.
  unfold results. rewrite <-!insert_empty.
  rewrite (insert_insert_ne _ "for_100%_shock_size") by done.
  rewrite (insert_insert_ne _ "for_100%_shock_size") by done.
  by rewrite insert_insert_eq.
Qed.
Lemma results_size a b c : size (results a b c) = 3.
Proof. reflexivity. Qed.
Lemma results_dom a b c : dom (results a b c) = ({[ "for_30%_shock_size"; "for_70%_shock_size"; "for_100%_shock_size" ]} : gset string).
Proof. unfold results. rewrite !dom_insert_L. set_solver. Qed.

(** ** Quantiles of a finite sample *)

Ltac qc_to_q :=
  unfold Qcle, Qclt in *;
  cbn [this Qcplus Qcmult Qcminus Qcopp Q2Qc] in *;
  rewrite ?Qred_correct in *.

Lemma sorted_lookup_le (l : list float64) i j x y :
  StronglySorted F.sort_le l → i ≤ j →
  l !! i = Some x → l !! j = Some y → F.sort_le x y.
Proof.
  intros Hs. revert i j. induction Hs as [|a l Hs IH Ha]; intros i j Hij Hi Hj.
  - done.
  - destruct i as [|i], j as [|j]; simplify_eq/=.
    + reflexivity.
    + eapply Forall_forall in Ha; [exact Ha|]. by eapply list_elem_of_lookup_2.
    + lia.
    + eapply (IH i j); [lia|done..].
Qed.

Lemma lerp_finite (x y t : Qc) : lerp (Fin x) (Fin y) t = Fin (x + (y - x) * t)%Qc.
Proof.
  unfold lerp. case_decide; unfold F.sub, F.add, F.mul, F.opp; f_equal; ring.
Qed.

Section Index.
Variables (n : nat) (q : Qc).
Hypothesis Hn : 1 ≤ n.
Hypothesis Hq0 : (Q2Qc 0 <= q)%Qc.
Hypothesis Hq1 : (q <= Q2Qc 1)%Qc.

Lemma virtual_index_bounds :
  (0 <= virtual_index n q)%Q ∧ (virtual_index n q <= inject_Z (Z.of_nat (n - 1)))%Q.
Proof.
  unfold virtual_index. qc_to_q.
  assert (0 <= inject_Z (Z.of_nat (n - 1)))%Q.
  { change 0%Q with (inject_Z 0). rewrite <-Zle_Qle. lia. }
  split; nra.
Qed.

Lemma previous_index_floor :
  Z.of_nat (previous_index n q) = Qfloor (virtual_index n q).
Proof.
  unfold previous_index. apply Z2Nat.id.
  rewrite <-(Qfloor_Z 0). apply Qfloor_resp_le, virtual_index_bounds.
Qed.

Lemma previous_index_bound : previous_index n q ≤ n - 1.
Proof.
  apply Nat2Z.inj_le. rewrite previous_index_floor.
  rewrite <-(Qfloor_Z (Z.of_nat (n - 1))).
  apply Qfloor_resp_le, virtual_index_bounds.
Qed.

Lemma gamma_bounds : (Q2Qc 0 <= gamma n q)%Qc ∧ (gamma n q <= Q2Qc 1)%Qc.
Proof.
  unfold gamma. rewrite previous_index_floor.
  pose proof (Qfloor_le (virtual_index n q)) as Hlo.
  pose proof (Qlt_floor (virtual_index n q)) as Hhi.
  rewrite inject_Z_plus in Hhi.
  generalize dependent (virtual_index n q). intros h Hlo Hhi.
  qc_to_q. change (inject_Z 1) with 1%Q in Hhi. split; lra.
Qed.
End Index.

Lemma previous_index_mono n q1 q2 :
  1 ≤ n → (Q2Qc 0 <= q1)%Qc → (q1 <= q2)%Qc → (q2 <= Q2Qc 1)%Qc →
  previous_index n q1 ≤ previous_index n q2 ∧
  (previous_index n q1 = previous_index n q2 → (gamma n q1 <= gamma n q2)%Qc).
Proof.
  intros Hn H0 H12 H1.
  assert (Hq2 : (Q2Qc 0 <= q2)%Qc) by (by eapply Qcle_trans).
  assert (Hq1 : (q1 <= Q2Qc 1)%Qc) by (by eapply Qcle_trans).
  assert (Hh : (virtual_index n q1 <= virtual_index n q2)%Q).
  { unfold virtual_index. qc_to_q.
    assert (0 <= inject_Z (Z.of_nat (n - 1)))%Q.
    { change 0%Q with (inject_Z 0). rewrite <-Zle_Qle. lia. }
    nra. }
  split.
  - apply Nat2Z.inj_le. rewrite !previous_index_floor by done.
    by apply Qfloor_resp_le.
  - intros Heq. unfold gamma. rewrite Heq.
    generalize dependent (virtual_index n q1).
    generalize dependent (virtual_index n q2).
    intros h2 h1 Hh. qc_to_q. lra.
Qed.

Lemma quantile_finite l q :
  l ≠ [] → Forall finite l →
  (Q2Qc 0 <= q)%Qc → (q <= Q2Qc 1)%Qc →
  ∃ x y : Qc,
    merge_sort F.sort_le l !! previous_index (length l) q = Some (Fin x) ∧
    merge_sort F.sort_le l
      !! Nat.min (S (previous_index (length l) q)) (length l - 1) = Some (Fin y) ∧
    (x <= y)%Qc ∧
    quantile_linear l q = Fin (x + (y - x) * gamma (length l) q)%Qc.
Proof.
  intros Hl Hfin Hq0 Hq1.
  assert (Hn : 1 ≤ length l) by (destruct l; [done|simpl; lia]).
  pose proof (previous_index_bound _ _ Hn Hq0 Hq1) as Hi.
  pose proof (merge_sort_Permutation F.sort_le l) as Hperm.
  assert (Hlen : length (merge_sort F.sort_le l) = length l)
    by (by apply Permutation_length).
  assert (Hfin' : Forall finite (merge_sort F.sort_le l)) by (by rewrite Hperm).
  set (i := previous_index (length l) q) in *.
  set (j := Nat.min (S i) (length l - 1)).
  destruct (lookup_lt_is_Some_2 (merge_sort F.sort_le l) i) as [a Ha]; [lia|].
  destruct (lookup_lt_is_Some_2 (merge_sort F.sort_le l) j) as [b Hb];
    [unfold j; lia|].
  assert (Hafin : finite a)
    by (eapply Forall_forall; [exact Hfin'|by eapply list_elem_of_lookup_2]).
  assert (Hbfin : finite b)
    by (eapply Forall_forall; [exact Hfin'|by eapply list_elem_of_lookup_2]).
  destruct a as [x| | |], b as [y| | |]; try done.
  exists x, y. split; [done|]. split; [done|]. split.
  - assert (Hs : StronglySorted F.sort_le (merge_sort F.sort_le l))
      by apply (StronglySorted_merge_sort _).
    apply (sorted_lookup_le _ i j (Fin x) (Fin y) Hs); [unfold j; lia|done..].
  - unfold quantile_linear. fold i. fold j.
    assert (existsb F.isnan l = false) as ->.
    { apply not_true_is_false. intros Hex. apply existsb_exists in Hex as (z & Hz & Hnan).
      apply list_elem_of_In in Hz. eapply Forall_forall in Hfin; [|exact Hz].
      by destruct z. }
    rewrite (list_lookup_total_correct _ _ _ Ha), (list_lookup_total_correct _ _ _ Hb).
    apply lerp_finite.
Qed.

Lemma leb_finite (a b : Qc) : F.leb (Fin a) (Fin b) = true ↔ (a <= b)%Qc.
Proof. simpl. apply bool_decide_eq_true. Qed.

Lemma sorted_elem (l : list float64) i x :
  merge_sort F.sort_le l !! i = Some x → x ∈ l.
Proof.
  intros Hi. rewrite <-(merge_sort_Permutation F.sort_le l).
  by eapply list_elem_of_lookup_2.
Qed.

(** A quantile of a finite sample lies between two order statistics. *)
Lemma quantile_between l q lo hi :
  l ≠ [] → Forall finite l →
  (Q2Qc 0 <= q)%Qc → (q <= Q2Qc 1)%Qc →
  is_minimum lo l → is_maximum hi l →
  F.leb lo (quantile_linear l q) = true ∧ F.leb (quantile_linear l q) hi = true.
Proof.
  intros Hl Hfin Hq0 Hq1 [Hlo Hlo'] [Hhi Hhi'].
  destruct (quantile_finite l q Hl Hfin Hq0 Hq1) as (x & y & Hx & Hy & Hxy & ->).
  assert (Hn : 1 ≤ length l) by (destruct l; [done|simpl; lia]).
  destruct (gamma_bounds _ _ Hn Hq0 Hq1) as [Hg0 Hg1].
  apply sorted_elem in Hx, Hy.
  pose proof (proj1 (Forall_forall _ _) Hlo' _ Hx) as Hlox.
  pose proof (proj1 (Forall_forall _ _) Hhi' _ Hy) as Hyhi.
  pose proof (proj1 (Forall_forall _ _) Hfin _ Hlo) as Hlofin.
  pose proof (proj1 (Forall_forall _ _) Hfin _ Hhi) as Hhifin.
  destruct lo as [a| | |], hi as [b| | |]; try done.
  apply leb_finite in Hlox, Hyhi. rewrite !leb_finite.
  generalize dependent (gamma (length l) q). intros g Hg0 Hg1.
  qc_to_q. split; nra.
Qed.

(** Quantiles of a finite sample grow with the level. *)
Lemma quantile_mono l q1 q2 :
  l ≠ [] → Forall finite l →
  (Q2Qc 0 <= q1)%Qc → (q1 <= q2)%Qc → (q2 <= Q2Qc 1)%Qc →
  F.leb (quantile_linear l q1) (quantile_linear l q2) = true.
Proof.
  intros Hl Hfin H0 H12 H1.
  assert (Hq2 : (Q2Qc 0 <= q2)%Qc) by (by eapply Qcle_trans).
  assert (Hq1 : (q1 <= Q2Qc 1)%Qc) by (by eapply Qcle_trans).
  assert (Hn : 1 ≤ length l) by (destruct l; [done|simpl; lia]).
  destruct (quantile_finite l q1 Hl Hfin H0 Hq1) as (x1 & y1 & Hx1 & Hy1 & Hxy1 & ->).
  destruct (quantile_finite l q2 Hl Hfin Hq2 H1) as (x2 & y2 & Hx2 & Hy2 & Hxy2 & ->).
  destruct (previous_index_mono (length l) q1 q2 Hn H0 H12 H1) as [Hi Hg].
  destruct (gamma_bounds _ _ Hn H0 Hq1) as [Hg10 Hg11].
  destruct (gamma_bounds _ _ Hn Hq2 H1) as [Hg20 Hg21].
  pose proof (previous_index_bound _ _ Hn Hq2 H1) as Hi2.
  apply leb_finite.
  destruct (decide (previous_index (length l) q1 = previous_index (length l) q2))
    as [Heq|Hne].
  - specialize (Hg Heq). rewrite Heq in Hx1, Hy1. simplify_eq.
    generalize dependent (gamma (length l) q1).
    generalize dependent (gamma (length l) q2).
    intros g2 Hg20 Hg21 g1 Hg Hg10 Hg11. qc_to_q. nra.
  - assert (Hs : StronglySorted F.sort_le (merge_sort F.sort_le l))
      by apply (StronglySorted_merge_sort _).
    assert (Hyx : (y1 <= x2)%Qc).
    { refine (sorted_lookup_le _ _ _ (Fin y1) (Fin x2) Hs _ Hy1 Hx2). lia. }
    clear Hg.
    generalize dependent (gamma (length l) q1).
    generalize dependent (gamma (length l) q2).
    intros g2 Hg20 Hg21 g1 Hg10 Hg11. qc_to_q. nra.
Qed.

Lemma minimum_exists l : l ≠ [] → Forall finite l → ∃ lo, is_minimum lo l.
Proof.
  intros Hl Hfin.
  assert (Hn : 1 ≤ length l) by (destruct l; [done|simpl; lia]).
  pose proof (merge_sort_Permutation F.sort_le l) as Hperm.
  destruct (lookup_lt_is_Some_2 (merge_sort F.sort_le l) 0) as [lo Hlo];
    [rewrite (Permutation_length Hperm); lia|].
  exists lo. split; [by eapply sorted_elem|].
  apply Forall_forall. intros x Hx. rewrite <-Hperm in Hx.
  apply list_elem_of_lookup in Hx as [k Hk].
  assert (Hs : StronglySorted F.sort_le (merge_sort F.sort_le l))
    by apply (StronglySorted_merge_sort _).
  pose proof (sorted_lookup_le _ 0 k lo x Hs ltac:(lia) Hlo Hk) as Hle.
  pose proof (proj1 (Forall_forall _ _) Hfin lo (sorted_elem _ _ _ Hlo)) as Hf1.
  pose proof (proj1 (Forall_forall _ _) Hfin x (sorted_elem _ _ _ Hk)) as Hf2.
  destruct lo, x; try done. by apply leb_finite.
Qed.

Lemma maximum_exists l : l ≠ [] → Forall finite l → ∃ hi, is_maximum hi l.
Proof.
  intros Hl Hfin.
  assert (Hn : 1 ≤ length l) by (destruct l; [done|simpl; lia]).
  pose proof (merge_sort_Permutation F.sort_le l) as Hperm.
  pose proof (Permutation_length Hperm) as Hlen.
  destruct (lookup_lt_is_Some_2 (merge_sort F.sort_le l) (length l - 1)) as [hi Hhi];
    [lia|].
  exists hi. split; [by eapply sorted_elem|].
  apply Forall_forall. intros x Hx. rewrite <-Hperm in Hx.
  apply list_elem_of_lookup in Hx as [k Hk].
  assert (Hs : StronglySorted F.sort_le (merge_sort F.sort_le l))
    by apply (StronglySorted_merge_sort _).
  pose proof (lookup_lt_Some _ _ _ Hk) as Hklt.
  pose proof (sorted_lookup_le _ k (length l - 1) x hi Hs ltac:(lia) Hk Hhi) as Hle.
  pose proof (proj1 (Forall_forall _ _) Hfin hi (sorted_elem _ _ _ Hhi)) as Hf1.
  pose proof (proj1 (Forall_forall _ _) Hfin x (sorted_elem _ _ _ Hk)) as Hf2.
  destruct hi, x; try done. by apply leb_finite.
Qed.

(** ** Exact arithmetic on finite values *)











(** ** The output identity *)







(** ** [I - A] applied to a vector *)







(** ** The effect as a function of the shock size *)







(** ** Quantiles and the order of the effects *)

Lemma merge_sort_Permutation_eq l l' :
  l ≡ₚ l' → merge_sort F.sort_le l = merge_sort F.sort_le l'.
Proof.
  intros Hp. apply (StronglySorted_unique F.sort_le).
  - apply (StronglySorted_merge_sort _).
  - apply (StronglySorted_merge_sort _).
  - by rewrite !merge_sort_Permutation.
Qed.

Lemma existsb_Permutation {X} (f : X → bool) l l' :
  l ≡ₚ l' → existsb f l = existsb f l'.
Proof.
  induction 1 as [|x l l' _ IH|x y l|l1 l2 l3 _ IH1 _ IH2]; simpl.
  - done.
  - by rewrite IH.
  - by destruct (f x), (f y).
  - by rewrite IH1.
Qed.

Lemma quantile_linear_Permutation l l' q :
  l ≡ₚ l' → quantile_linear l q = quantile_linear l' q.
Proof.
  intros Hp. unfold quantile_linear.
  by rewrite (merge_sort_Permutation_eq _ _ Hp), (Permutation_length Hp),
    (existsb_Permutation _ _ _ Hp).
Qed.

(** ** An effect that is not a number *)

Lemma fold_add_NaN l : fold_left F.add l NaN = NaN.
Proof. induction l as [|x l IH]; [done|]. exact IH. Qed.

Lemma np_sum_NaN l : NaN ∈ l → np_sum l = NaN.
Proof.
  intros Hin. apply list_elem_of_split in Hin as (l1 & l2 & ->).
  unfold np_sum. rewrite fold_left_app. cbn [fold_left].
  replace (fold_left F.add l1 F.zero + NaN)%F with NaN
    by (by destruct (fold_left F.add l1 F.zero)).
  apply fold_add_NaN.
Qed.

Lemma quantile_linear_NaN l q : NaN ∈ l → quantile_linear l q = NaN.
Proof.
  intros Hin. unfold quantile_linear.
  assert (existsb F.isnan l = true) as ->; [|done].
  apply existsb_exists. exists NaN. split; [|done]. by apply list_elem_of_In.
Qed.

Section Properties.
Context `{NumPy}.

(** ** Running a computation step by step *)

Lemma bind_Return {X Y} (m : M X) (f : X → M Y) w a w' :
  m w = (Return a, w') → (m ≫= f) w = f a w'.
Proof. intros Hm. unfold mbind, M_bind. by rewrite Hm. Qed.

Lemma bind_Raise {X Y} (m : M X) (f : X → M Y) w e w' :
  m w = (Raise e, w') → (m ≫= f) w = (Raise e, w').
Proof. intros Hm. unfold mbind, M_bind. by rewrite Hm. Qed.

Ltac step tac := erewrite bind_Return; [|tac].

Lemma Return_inj {X} (a b : X) : Return a = Return b → a = b.
Proof. by intros [= ->]. Qed.

Lemma read_series_spec w l v :
  heap w !! l = Some (Series v) → read_series l w = (Return v, w).
Proof. intros Hl. unfold read_series. by rewrite Hl. Qed.

Lemma read_ndarray_spec w l m :
  heap w !! l = Some (Ndarray m) → read_ndarray l w = (Return m, w).
Proof. intros Hl. unfold read_ndarray. by rewrite Hl. Qed.

Lemma series_copy_spec w l v :
  heap w !! l = Some (Series v) →
  series_copy l w = (Return (length (heap w)), set_heap (heap w ++ [Series v]) w).
Proof.
  intros Hl. unfold series_copy.
  by rewrite (bind_Return _ _ _ _ _ (read_series_spec _ _ _ Hl)).
Qed.

Lemma lookup_fresh (h : list object) o : (h ++ [o]) !! length h = Some o.
Proof. by rewrite lookup_app_r, Nat.sub_diag. Qed.

Lemma insert_fresh (h : list object) o o' :
  <[length h := o']> (h ++ [o]) = h ++ [o'].
Proof. by rewrite insert_app_r_alt, Nat.sub_diag. Qed.

Lemma lookup_old (h k : list object) l o :
  h !! l = Some o → (h ++ k) !! l = Some o.
Proof. intros Hl. by rewrite lookup_app_l_Some with (x := o). Qed.

(** One iteration copies the vector, scales one entry of the copy and
    records the effect; the only change to the heap is the new copy. *)
Lemma shock_iteration_spec w lm lv m v benchmark shock_size acc sec :
  heap w !! lm = Some (Ndarray m) →
  heap w !! lv = Some (Series v) →
  Forall (λ row, length row = length v) m →
  sec < length v →
  shock_iteration lm lv benchmark shock_size acc sec w
  = (Return (acc ++ [effect_of m v benchmark shock_size sec]),
     set_heap (heap w ++ [Series (shocked v shock_size sec)]) w).
Proof.
  intros Hm Hv Hshape Hsec. unfold shock_iteration.
  rewrite (bind_Return _ _ _ _ _ (series_copy_spec _ _ _ Hv)).
  destruct (lookup_lt_is_Some_2 v sec Hsec) as [x Hx].
  assert (Hget : series_getitem (length (heap w)) sec
                   (set_heap (heap w ++ [Series v]) w)
                 = (Return x, set_heap (heap w ++ [Series v]) w)).
  { unfold series_getitem.
    rewrite (bind_Return _ _ (set_heap (heap w ++ [Series v]) w) v
               (set_heap (heap w ++ [Series v]) w));
      [simpl; by rewrite Hx|].
    apply read_series_spec. simpl. apply lookup_fresh. }
  rewrite (bind_Return _ _ _ _ _ Hget).
  assert (Hset : series_setitem (length (heap w)) sec (x * (F.one - shock_size))%F
                   (set_heap (heap w ++ [Series v]) w)
                 = (Return (),
                    set_heap (heap w ++ [Series (shocked v shock_size sec)]) w)).
  { unfold series_setitem. simpl. rewrite lookup_fresh, insert_fresh.
    unfold shocked. by rewrite (list_lookup_total_correct _ _ _ Hx). }
  rewrite (bind_Return _ _ _ _ _ Hset).
  assert (Hdot : np_dot lm (length (heap w))
                   (set_heap (heap w ++ [Series (shocked v shock_size sec)]) w)
                 = (Return (mat_vec m (shocked v shock_size sec)),
                    set_heap (heap w ++ [Series (shocked v shock_size sec)]) w)).
  { unfold np_dot.
    rewrite (bind_Return _ _ _ m
               (set_heap (heap w ++ [Series (shocked v shock_size sec)]) w));
      [|apply read_ndarray_spec; simpl; by apply lookup_old].
    rewrite (bind_Return _ _ _ (shocked v shock_size sec)
               (set_heap (heap w ++ [Series (shocked v shock_size sec)]) w));
      [|apply read_series_spec; simpl; apply lookup_fresh].
    unfold shocked. rewrite length_insert. by rewrite decide_True. }
  by rewrite (bind_Return _ _ _ _ _ Hdot).
Qed.

(** The loop over the sampled sectors: one effect and one copy per sector. *)
Lemma shock_loop_spec sectors : ∀ w acc lm lv m v benchmark shock_size,
  heap w !! lm = Some (Ndarray m) →
  heap w !! lv = Some (Series v) →
  Forall (λ row, length row = length v) m →
  Forall (λ sec, sec < length v) sectors →
  for_each sectors acc (shock_iteration lm lv benchmark shock_size) w
  = (Return (acc ++ fmap (effect_of m v benchmark shock_size) sectors),
     set_heap (heap w ++ fmap (λ sec, Series (shocked v shock_size sec)) sectors) w).
Proof.
  induction sectors as [|sec sectors IH];
    intros w acc lm lv m v benchmark shock_size Hm Hv Hshape Hsecs.
  - simpl. rewrite !app_nil_r. by destruct w.
  - apply Forall_cons in Hsecs as [Hsec Hsecs]. simpl.
    rewrite (bind_Return _ _ _ _ _
               (shock_iteration_spec _ _ _ _ _ benchmark shock_size acc _
                  Hm Hv Hshape Hsec)).
    rewrite (IH _ _ lm lv m v); [|by apply lookup_old..|done|done].
    simpl. by rewrite <-!app_assoc.
Qed.

(** ** Sampling *)

Lemma random_choice_spec w (k : Z) :
  (0 ≤ k ≤ 3195)%Z →
  random_choice 3195 k w
  = (Return (drawn (rng w) k), set_rng (after_draw (rng w)) w).
Proof.
  intros Hk. unfold random_choice, drawn, after_draw.
  rewrite decide_False by lia. rewrite decide_False by lia.
  by destruct (permutation (rng w) 3195).
Qed.

Lemma random_choice_too_large w (k : Z) :
  (3195 < k)%Z →
  random_choice 3195 k w
  = (Raise (ValueError
       "Cannot take a larger sample than population when 'replace=False'"), w).
Proof. intros Hk. unfold random_choice. by rewrite decide_True by lia. Qed.

Lemma random_choice_negative w (k : Z) :
  (k < 0)%Z →
  random_choice 3195 k w
  = (Raise (ValueError "negative dimensions are not allowed"), w).
Proof.
  intros Hk. unfold random_choice.
  rewrite decide_False by lia. by rewrite decide_True by lia.
Qed.

Lemma drawn_NoDup g k : NoDup (drawn g k).
Proof.
  unfold drawn. eapply sublist_NoDup; [|apply sublist_take].
  rewrite (permutation_Permutation g 3195). apply NoDup_seq.
Qed.

Lemma drawn_in_range g k : Forall (λ sec, sec < 3195) (drawn g k).
Proof.
  unfold drawn. apply Forall_take, Forall_forall. intros sec Hsec.
  rewrite (permutation_Permutation g 3195) in Hsec.
  apply elem_of_seq in Hsec. lia.
Qed.

Lemma drawn_length g (k : Z) : (0 ≤ k ≤ 3195)%Z → length (drawn g k) = Z.to_nat k.
Proof.
  intros Hk. unfold drawn. rewrite length_take.
  rewrite (Permutation_length (permutation_Permutation g 3195)), length_seq. lia.
Qed.

(** ** The experiment *)

Lemma square_rows n m k : square n m → n = k → Forall (λ row, length row = k) m.
Proof. intros [_ Hrows] <-. done. Qed.

(** [shock] on a prepared model, for the two shock types: the effects are
    those of [effects_of] on the drawn sectors and the world changes by the
    copies and the draw only. *)
Lemma shock_demand_spec w self md shock_size (k : Z) :
  holds w self md → prepared md → (0 ≤ k ≤ 3195)%Z →
  shock self "Demand" shock_size k w
  = (statistics (effects_of md "Demand" shock_size (drawn (rng w) k)),
     after_shock w (md_demand md) shock_size k).
Proof.
  intros Hh Hp Hk. unfold shock, shock_select.
  rewrite decide_True by done.
  unfold mbind at 1, M_bind, mret, M_ret. cbv beta iota.
  rewrite (bind_Return _ _ _ _ _ (random_choice_spec w k Hk)).
  rewrite (bind_Return _ _ _ _ _
    (shock_loop_spec (drawn (rng w) k) (set_rng (after_draw (rng w)) w) []
       (leontief_inverse self) (demand self)
       (md_leontief_inverse md) (md_demand md) (total_output self) shock_size
       (holds_inverse _ _ _ Hh) (holds_demand _ _ _ Hh)
       (square_rows _ _ _ (prepared_inverse _ Hp) (eq_sym (prepared_demand _ Hp)))
       (eq_rect_r (λ n, Forall (λ sec, sec < n) _) (drawn_in_range _ _)
          (prepared_demand _ Hp)))).
  unfold lift, effects_of, after_shock. rewrite decide_True by done.
  by rewrite (holds_total_output _ _ _ Hh).
Qed.

Lemma shock_supply_spec w self md shock_size (k : Z) :
  holds w self md → prepared md → (0 ≤ k ≤ 3195)%Z →
  shock self "Supply" shock_size k w
  = (statistics (effects_of md "Supply" shock_size (drawn (rng w) k)),
     after_shock w (md_output md) shock_size k).
Proof.
  intros Hh Hp Hk. unfold shock, shock_select.
  rewrite decide_False by done. rewrite decide_True by done.
  unfold mbind at 1, M_bind, mret, M_ret. cbv beta iota.
  rewrite (bind_Return _ _ _ _ _ (random_choice_spec w k Hk)).
  rewrite (bind_Return _ _ _ _ _
    (shock_loop_spec (drawn (rng w) k) (set_rng (after_draw (rng w)) w) []
       (I_minus_A self) (output self)
       (md_I_minus_A md) (md_output md) (total_final_demand self) shock_size
       (holds_I_minus_A _ _ _ Hh) (holds_output _ _ _ Hh)
       (square_rows _ _ _ (prepared_I_minus_A _ Hp) (eq_sym (prepared_output _ Hp)))
       (eq_rect_r (λ n, Forall (λ sec, sec < n) _) (drawn_in_range _ _)
          (prepared_output _ Hp)))).
  unfold lift, effects_of, after_shock. rewrite decide_False by done.
  by rewrite (holds_total_final_demand _ _ _ Hh).
Qed.

(** ** The constructor *)

Lemma alloc_ext h ext g fs o :
  alloc o (mkWorld (h ++ ext) g fs)
  = (Return (length h + length ext), mkWorld (h ++ (ext ++ [o])) g fs).
Proof. unfold alloc, set_heap. simpl. by rewrite length_app, <-app_assoc. Qed.

Lemma lookup_ext (h ext : list object) i : (h ++ ext) !! (length h + i) = ext !! i.
Proof. rewrite lookup_app_r by lia. f_equal. lia. Qed.

Lemma read_ndarray_ext h ext g fs i m :
  ext !! i = Some (Ndarray m) →
  read_ndarray (length h + i) (mkWorld (h ++ ext) g fs)
  = (Return m, mkWorld (h ++ ext) g fs).
Proof. intros Hi. apply read_ndarray_spec. simpl. by rewrite lookup_ext. Qed.

Lemma read_series_ext h ext g fs i v :
  ext !! i = Some (Series v) →
  read_series (length h + i) (mkWorld (h ++ ext) g fs)
  = (Return v, mkWorld (h ++ ext) g fs).
Proof. intros Hi. apply read_series_spec. simpl. by rewrite lookup_ext. Qed.

Lemma ndarray_fill_nan_ext h ext g fs i m :
  ext !! i = Some (Ndarray m) →
  ndarray_fill_nan (length h + i) (mkWorld (h ++ ext) g fs)
  = (Return (), mkWorld (h ++ <[i := Ndarray (nan_to_zero m)]> ext) g fs).
Proof.
  intros Hi. unfold ndarray_fill_nan, set_heap. simpl.
  by rewrite lookup_ext, Hi, insert_app_r.
Qed.

(** The steps behind a successful [model_of_table]. *)
Lemma model_of_table_Return d md :
  model_of_table d = Return md →
  ∃ out a ia inv,
    labels_all_equal (row_labels d) (column_labels d) = Return true ∧
    extract_output d = Return out ∧
    np_divide (extract_io_matrix d) out = Return a ∧
    identity_minus (nan_to_zero a) = Return ia ∧
    np_linalg_inv ia = Return inv ∧
    md = mkModelData (extract_io_matrix d) (extract_demand d) out
           (nan_to_zero a) ia inv.
Proof.
  unfold model_of_table, coefficient_matrix.
  unfold mbind, outcome_bind, fmap, outcome_fmap. intros Hmd.
  destruct (labels_all_equal (row_labels d) (column_labels d)) as [|[|]] eqn:Hlab;
    [done| |done].
  destruct (extract_output d) as [|out] eqn:Hout; [done|].
  destruct (np_divide (extract_io_matrix d) out) as [|a] eqn:Ha; [done|].
  destruct (identity_minus (nan_to_zero a)) as [|ia] eqn:Hia; [done|].
  destruct (np_linalg_inv ia) as [|inv] eqn:Hinv; [done|].
  apply Return_inj in Hmd. by exists out, a, ia, inv.
Qed.

Lemma model_of_table_intro d out a ia inv :
  labels_all_equal (row_labels d) (column_labels d) = Return true →
  extract_output d = Return out →
  np_divide (extract_io_matrix d) out = Return a →
  identity_minus (nan_to_zero a) = Return ia →
  np_linalg_inv ia = Return inv →
  model_of_table d
  = Return (mkModelData (extract_io_matrix d) (extract_demand d) out
              (nan_to_zero a) ia inv).
Proof.
  intros Hlab Hout Ha Hia Hinv. unfold model_of_table, coefficient_matrix.
  unfold mbind, outcome_bind, fmap, outcome_fmap.
  by rewrite Hlab, Hout, Ha, Hia, Hinv.
Qed.

(** The constructor succeeds exactly as [model_of_table] does and then
    stores the content as six new objects. *)
Lemma init_spec w d md :
  files w !! "ICIO2021_2018.csv" = Some d →
  model_of_table d = Return md →
  Leontief_Model___init__ w
  = (Return (model_at (length (heap w)) d md),
     set_heap (heap w ++ objects_of md) w).
Proof.
  intros Hfile Hmd. destruct w as [h g fs]. simpl in Hfile.
  destruct (model_of_table_Return _ _ Hmd)
    as (out & a & ia & inv & Hlab & Hout & Ha & Hia & Hinv & ->).
  unfold Leontief_Model___init__.
  rewrite (bind_Return _ _ _ d (mkWorld h g fs)) by (unfold read_csv; simpl; by rewrite Hfile).
  rewrite (bind_Return _ _ _ true (mkWorld h g fs)) by (unfold lift; by rewrite Hlab).
  rewrite (bind_Return _ _ _ () (mkWorld h g fs)) by done.
  rewrite <-(app_nil_r h) at 1.
  step ltac:(apply alloc_ext).
  step ltac:(apply alloc_ext).
  step ltac:(unfold lift; by rewrite Hout).
  step ltac:(apply alloc_ext).
  step ltac:(by apply read_ndarray_ext).
  step ltac:(by apply (read_series_ext _ _ _ _ 2)).
  step ltac:(unfold lift; by rewrite Ha).
  step ltac:(apply alloc_ext).
  step ltac:(by apply (ndarray_fill_nan_ext _ _ _ _ 3)).
  step ltac:(by apply (read_ndarray_ext _ _ _ _ 3)).
  step ltac:(unfold lift; by rewrite Hia).
  step ltac:(apply alloc_ext).
  step ltac:(unfold lift; by rewrite Hinv).
  step ltac:(apply alloc_ext).
  step ltac:(by apply (read_series_ext _ _ _ _ 2)).
  step ltac:(by apply (read_series_ext _ _ _ _ 1)).
  unfold model_at, objects_of, set_heap. simpl. by rewrite Nat.add_0_r.
Qed.

Lemma model_at_holds h g fs d md :
  holds (mkWorld (h ++ objects_of md) g fs) (model_at (length h) d md) md.
Proof.
  split; simpl; try done;
    first [ by rewrite <-(Nat.add_0_r (length h)), lookup_ext
          | by rewrite lookup_ext ].
Qed.

Lemma square_zip_with n (f : float64 → float64 → float64) m1 m2 :
  square n m1 → square n m2 → square n (zip_with (zip_with f) m1 m2).
Proof.
  intros [Hl1 Hr1] [Hl2 Hr2]. split.
  - rewrite length_zip_with. lia.
  - clear Hl1 Hl2. revert m2 Hr2.
    induction Hr1 as [|r1 m1 Hr1 _ IH]; intros [|r2 m2] Hr2; simpl;
      [constructor..|].
    apply Forall_cons in Hr2 as [Hr2 Hm2]. constructor; [|by apply IH].
    rewrite length_zip_with. lia.
Qed.

Lemma identity_square n : square n (identity n).
Proof.
  unfold identity. split.
  - by rewrite length_fmap, length_seq.
  - apply Forall_fmap, Forall_forall. intros i _. simpl.
    by rewrite length_fmap, length_seq.
Qed.

Lemma nan_to_zero_square n m : square n m → square n (nan_to_zero m).
Proof.
  intros [Hl Hr]. unfold nan_to_zero. split.
  - by rewrite length_fmap.
  - apply Forall_fmap. eapply Forall_impl; [exact Hr|].
    intros row Hrow. simpl. by rewrite length_fmap.
Qed.

Lemma identity_minus_Return a ia :
  identity_minus a = Return ia → square 3195 a ∧ square 3195 ia.
Proof.
  unfold identity_minus. case_decide as Hsq; [|discriminate].
  intros Hia. apply Return_inj in Hia. split; [exact Hsq|].
  rewrite <-Hia. apply square_zip_with; [apply identity_square|exact Hsq].
Qed.

Lemma np_divide_Return m v a :
  np_divide m v = Return a → length a = length m.
Proof.
  unfold np_divide. case_decide; [|discriminate].
  intros Ha. apply Return_inj in Ha. rewrite <-Ha. apply length_fmap.
Qed.

Lemma extract_output_Return d out :
  extract_output d = Return out → length out = length (take 3195 (rows d)).
Proof.
  unfold extract_output. case_decide; [|discriminate].
  destruct (mapM _ _) as [v|] eqn:Hv; [|discriminate].
  intros Hout. apply Return_inj in Hout. rewrite <-Hout.
  symmetry. exact (length_mapM _ _ _ Hv).
Qed.

Lemma np_linalg_inv_Return n m l :
  square n m → np_linalg_inv m = Return l → square n l.
Proof.
  unfold np_linalg_inv. intros Hm.
  destruct (linalg_inv m) as [l'|] eqn:Hl; [|discriminate].
  intros Hinv. apply Return_inj in Hinv. rewrite <-Hinv.
  exact (linalg_inv_square n m l' Hm Hl).
Qed.

(** What the constructor accepts has the shapes [shock] relies on. *)
Lemma model_of_table_prepared d md : model_of_table d = Return md → prepared md.
Proof.
  intros Hmd.
  destruct (model_of_table_Return _ _ Hmd)
    as (out & a & ia & inv & Hlab & Hout & Ha & Hia & Hinv & ->).
  destruct (identity_minus_Return _ _ Hia) as [Hsq Hia'].
  assert (Hrows : length (take 3195 (rows d)) = 3195).
  { destruct Hsq as [Hlen _]. unfold nan_to_zero in Hlen.
    rewrite length_fmap, (np_divide_Return _ _ _ Ha) in Hlen.
    unfold extract_io_matrix in Hlen. rewrite length_fmap in Hlen. exact Hlen. }
  constructor; cbn [md_demand md_output md_A md_I_minus_A md_leontief_inverse].
  - unfold extract_demand. rewrite length_fmap. exact Hrows.
  - rewrite (extract_output_Return _ _ Hout). exact Hrows.
  - exact Hsq.
  - exact Hia'.
  - exact (np_linalg_inv_Return _ _ _ Hia' Hinv).
Qed.

(** Constructing a model from an accepted table. *)
Lemma constructed w d md :
  files w !! "ICIO2021_2018.csv" = Some d →
  model_of_table d = Return md →
  ∃ self w', Leontief_Model___init__ w = (Return self, w') ∧
    holds w' self md ∧ prepared md ∧
    heap w' = heap w ++ objects_of md ∧ rng w' = rng w ∧ files w' = files w.
Proof.
  intros Hfile Hmd. eexists _, _. split; [by apply init_spec|].
  destruct w as [h g fs]. split; [apply model_at_holds|].
  split; [by eapply model_of_table_prepared|done].
Qed.

Ltac stop tac := erewrite bind_Raise; [by eexists|tac].

Lemma Raise_inj {X} (e e' : Exn) : @Raise X e = Raise e' → e = e'.
Proof. by intros [= ->]. Qed.

(** The step at which a failing [model_of_table] fails. *)
Lemma model_of_table_Raise d e :
  model_of_table d = Raise e →
  labels_all_equal (row_labels d) (column_labels d) = Raise e ∨
  (labels_all_equal (row_labels d) (column_labels d) = Return false ∧
   e = AssertionError "") ∨
  (labels_all_equal (row_labels d) (column_labels d) = Return true ∧
   (extract_output d = Raise e ∨
    ∃ out, extract_output d = Return out ∧
      (np_divide (extract_io_matrix d) out = Raise e ∨
       ∃ a, np_divide (extract_io_matrix d) out = Return a ∧
         (identity_minus (nan_to_zero a) = Raise e ∨
          ∃ ia, identity_minus (nan_to_zero a) = Return ia ∧
            np_linalg_inv ia = Raise e)))).
Proof.
  unfold model_of_table, coefficient_matrix.
  unfold mbind, outcome_bind, fmap, outcome_fmap. intros Hmd.
  destruct (labels_all_equal (row_labels d) (column_labels d)) as [e'|[|]] eqn:Hlab.
  { left. by apply Raise_inj in Hmd as ->. }
  2:{ right. left. by apply Raise_inj in Hmd as <-. }
  right. right. split; [done|].
  destruct (extract_output d) as [e'|out] eqn:Hout.
  { left. by apply Raise_inj in Hmd as ->. }
  right. exists out. split; [done|].
  destruct (np_divide (extract_io_matrix d) out) as [e'|a] eqn:Ha.
  { left. by apply Raise_inj in Hmd as ->. }
  right. exists a. split; [done|].
  destruct (identity_minus (nan_to_zero a)) as [e'|ia] eqn:Hia.
  { left. by apply Raise_inj in Hmd as ->. }
  right. exists ia. split; [done|].
  destruct (np_linalg_inv ia) as [e'|inv] eqn:Hinv; [|discriminate].
  by apply Raise_inj in Hmd as ->.
Qed.

(** When [model_of_table] raises, so does the constructor. *)
Lemma init_raises w d e :
  files w !! "ICIO2021_2018.csv" = Some d →
  model_of_table d = Raise e →
  ∃ w', Leontief_Model___init__ w = (Raise e, w').
Proof.
  intros Hfile Hmd. destruct w as [h g fs]. simpl in Hfile.
  apply model_of_table_Raise in Hmd.
  unfold Leontief_Model___init__.
  rewrite (bind_Return _ _ _ d (mkWorld h g fs))
    by (unfold read_csv; simpl; by rewrite Hfile).
  destruct Hmd as [Hlab|[[Hlab ->]|[Hlab Hmd]]].
  { stop ltac:(unfold lift; by rewrite Hlab). }
  { step ltac:(unfold lift; by rewrite Hlab). stop ltac:(reflexivity). }
  step ltac:(unfold lift; by rewrite Hlab). step ltac:(reflexivity).
  rewrite <-(app_nil_r h).
  step ltac:(apply alloc_ext).
  step ltac:(apply alloc_ext).
  destruct Hmd as [Hout|(out & Hout & Hmd)].
  { stop ltac:(unfold lift; by rewrite Hout). }
  step ltac:(unfold lift; by rewrite Hout).
  step ltac:(apply alloc_ext).
  step ltac:(by apply read_ndarray_ext).
  step ltac:(by apply (read_series_ext _ _ _ _ 2)).
  destruct Hmd as [Ha|(a & Ha & Hmd)].
  { stop ltac:(unfold lift; by rewrite Ha). }
  step ltac:(unfold lift; by rewrite Ha).
  step ltac:(apply alloc_ext).
  step ltac:(by apply (ndarray_fill_nan_ext _ _ _ _ 3)).
  step ltac:(by apply (read_ndarray_ext _ _ _ _ 3)).
  destruct Hmd as [Hia|(ia & Hia & Hinv)].
  { stop ltac:(unfold lift; by rewrite Hia). }
  step ltac:(unfold lift; by rewrite Hia).
  step ltac:(apply alloc_ext).
  stop ltac:(unfold lift; by rewrite Hinv).
Qed.

(** Every model the constructor returns has a content that
    [model_of_table] computes from the table in the working directory, and
    the shapes [shock] relies on. *)
Lemma init_Return w self w' :
  Leontief_Model___init__ w = (Return self, w') →
  ∃ d md, files w !! "ICIO2021_2018.csv" = Some d ∧
    model_of_table d = Return md ∧ holds w' self md ∧ prepared md.
Proof.
  intros Hinit. destruct (files w !! "ICIO2021_2018.csv") as [d|] eqn:Hfile.
  - destruct (model_of_table d) as [e|md] eqn:Hmd.
    + destruct (init_raises w d e Hfile Hmd) as [w1 Hraise]. congruence.
    + destruct (constructed w d md Hfile Hmd) as (self1 & w1 & Hret & Hh & Hp & _).
      exists d, md. rewrite Hret in Hinit.
      assert (self1 = self) as <- by congruence.
      assert (w1 = w') as <- by congruence. done.
  - unfold Leontief_Model___init__, read_csv in Hinit.
    unfold mbind at 1, M_bind at 1 in Hinit. by rewrite Hfile in Hinit.
Qed.

(** ** Statistics of a non-empty sample *)

Lemma statistics_nonempty l :
  l ≠ [] →
  statistics l
  = Return (mkResult l (np_mean l) (np_std l)
              (quantile_linear l (Q2Qc (5 # 10)))
              (quantile_linear l (Q2Qc (95 # 100)))
              (quantile_linear l (Q2Qc (99 # 100)))).
Proof. intros Hl. unfold statistics, np_quantile. by destruct l. Qed.

Lemma effects_of_length md ty size sectors :
  length (effects_of md ty size sectors) = length sectors.
Proof. unfold effects_of. case_decide; apply length_fmap. Qed.

Lemma effects_of_nonempty md ty size g (k : Z) :
  (1 ≤ k ≤ 3195)%Z → effects_of md ty size (drawn g k) ≠ [].
Proof.
  intros Hk Hnil. apply (f_equal length) in Hnil.
  rewrite effects_of_length, drawn_length in Hnil by lia. simpl in Hnil. lia.
Qed.

Lemma moderate_finite l : Forall moderate l → Forall finite l.
Proof. intros Hl. eapply Forall_impl; [exact Hl|]. by intros [q| | |]. Qed.

(** C6 (amended).  For a non-empty sequence of effects that are finite and
    of magnitude at most [2^1022], so that the difference numpy's
    interpolation takes of two of them does not overflow, the statistics
    are computed, the 99th percentile is at least the median, and the
    median lies between the least and the greatest effect (which exist).
    Within this range the order does not depend on rounding: the
    interpolation stays between the two order statistics it is taken of. *)
Theorem percentile_order l :
  l ≠ [] → Forall moderate l →
  ∃ r, statistics l = Return r ∧ Shock_effect_data r = l ∧
    F.leb (Median r) (Upper_1_quantile r) = true ∧
    (∃ lo, is_minimum lo l) ∧ (∃ hi, is_maximum hi l) ∧
    ∀ lo hi, is_minimum lo l → is_maximum hi l →
      F.leb lo (Median r) = true ∧ F.leb (Median r) hi = true.
Proof.
  intros Hl Hmod. pose proof (moderate_finite l Hmod) as Hfin.
  rewrite statistics_nonempty by done.
  eexists. split; [reflexivity|]. cbn [Shock_effect_data Median Upper_1_quantile].
  split; [done|]. split; [by apply quantile_mono|].
  split; [by apply minimum_exists|]. split; [by apply maximum_exists|].
  intros lo hi Hlo Hhi. by apply quantile_between.
Qed.

(** ** What an experiment leaves untouched *)

Lemma grown_refl w : grown w w.
Proof. split; [exists []; by rewrite app_nil_r|done]. Qed.

Lemma grown_trans w1 w2 w3 : grown w1 w2 → grown w2 w3 → grown w1 w3.
Proof.
  intros [[e1 H1] F1] [[e2 H2] F2]. split; [|congruence].
  exists (e1 ++ e2). by rewrite H2, H1, app_assoc.
Qed.

Lemma bind_grown {X Y} (m : M X) (f : X → M Y) w o w' :
  (∀ o1 w1, m w = (o1, w1) → grown w w1) →
  (∀ a w1 o2 w2, f a w1 = (o2, w2) → grown w1 w2) →
  (m ≫= f) w = (o, w') → grown w w'.
Proof.
  intros Hm Hf. unfold mbind, M_bind.
  destruct (m w) as [[e|a] w1] eqn:Hmw.
  - intros [= <- <-]. by eapply Hm.
  - intros Hfa. eapply grown_trans; [by eapply Hm|by eapply Hf].
Qed.

Lemma read_series_grown l w o w' : read_series l w = (o, w') → grown w w'.
Proof.
  unfold read_series. intros Hr.
  assert (w' = w) as -> by (repeat case_match; congruence). apply grown_refl.
Qed.

Lemma read_ndarray_grown l w o w' : read_ndarray l w = (o, w') → grown w w'.
Proof.
  unfold read_ndarray. intros Hr.
  assert (w' = w) as -> by (repeat case_match; congruence). apply grown_refl.
Qed.

Lemma alloc_grown ob w o w' : alloc ob w = (o, w') → grown w w'.
Proof. unfold alloc. intros [= _ <-]. split; [by eexists|done]. Qed.

Lemma series_copy_returns l w o w' :
  series_copy l w = (o, w') →
  (∃ e, o = Raise e ∧ w' = w) ∨
  (∃ v, o = Return (length (heap w)) ∧ w' = set_heap (heap w ++ [Series v]) w).
Proof.
  unfold series_copy, mbind, M_bind, read_series, alloc.
  destruct (heap w !! l) as [[v|m|d]|]; intros [= <- <-]; eauto.
Qed.

(** After the copy, the iteration works on the new object only. *)
Lemma shock_iteration_grown lm lv b size acc sec w o w' :
  shock_iteration lm lv b size acc sec w = (o, w') → grown w w'.
Proof.
  unfold shock_iteration. unfold mbind at 1, M_bind at 1.
  destruct (series_copy lv w) as [o1 w1] eqn:Hcopy.
  destruct (series_copy_returns _ _ _ _ Hcopy) as [(e & -> & ->)|(v & -> & ->)].
  { intros [= <- <-]. apply grown_refl. }
  intros Hrest.
  assert (Hstep : ∀ v', grown w (set_heap (heap w ++ [Series v']) w))
    by (intros v'; split; [by eexists|done]).
  revert Hrest. unfold series_getitem, series_setitem, np_dot, read_series,
    read_ndarray, mbind, M_bind, mret, M_ret, raise. simpl.
  rewrite lookup_fresh.
  destruct (v !! sec); [|intros [= <- <-]; apply Hstep].
  simpl. rewrite lookup_fresh, insert_fresh. simpl.
  destruct ((heap w ++ _) !! lm) as [[?|m|?]|]; try (intros [= <- <-]; apply Hstep).
  simpl. rewrite lookup_fresh. simpl.
  case_decide; intros [= <- <-]; apply Hstep.
Qed.

Lemma for_each_grown {X Y} (body : Y → X → M Y) xs :
  (∀ acc x w o w', body acc x w = (o, w') → grown w w') →
  ∀ acc w o w', for_each xs acc body w = (o, w') → grown w w'.
Proof.
  intros Hbody. induction xs as [|x xs IH]; intros acc w o w'; simpl.
  - intros [= <- <-]. apply grown_refl.
  - apply bind_grown; [apply Hbody|apply IH].
Qed.

Lemma random_choice_grown n k w o w' : random_choice n k w = (o, w') → grown w w'.
Proof.
  unfold random_choice. repeat case_decide.
  - intros [= _ <-]. apply grown_refl.
  - intros [= _ <-]. apply grown_refl.
  - destruct (permutation (rng w) n). intros [= _ <-].
    split; [exists []; simpl; by rewrite app_nil_r|done].
Qed.

Lemma shock_grown self ty size k w o w' :
  shock self ty size k w = (o, w') → grown w w'.
Proof.
  unfold shock. apply bind_grown.
  { unfold shock_select. intros o1 w1.
    repeat case_decide; intros [= _ <-]; apply grown_refl. }
  intros [[lm lv] b] w1 o2 w2. apply bind_grown; [apply random_choice_grown|].
  intros sectors w3 o3 w4. apply bind_grown.
  { apply for_each_grown. intros ?????. apply shock_iteration_grown. }
  intros effects w5 o5 w6. unfold lift. intros [= _ <-]. apply grown_refl.
Qed.

Lemma grown_lookup w w' l :
  grown w w' → l < length (heap w) → heap w' !! l = heap w !! l.
Proof. intros [[ext ->] _] Hl. by apply lookup_app_l. Qed.

Lemma grown_holds w w' self md : grown w w' → holds w self md → holds w' self md.
Proof.
  intros Hg [H1 H2 H3 H4 H5 H6 H7 H8].
  split; try done; (rewrite (grown_lookup w w'); [done..|by eapply lookup_lt_Some]).
Qed.

(** ** The shock experiment *)

(** C1.  On a prepared model and for a valid sample size, a demand
    experiment works on the Leontief inverse, the final demand and the total
    output, a supply experiment on [I - A], the output and the total final
    demand; the effect recorded for a drawn sector is one minus the sum of
    the product of the matrix and the vector whose entry at that sector is
    scaled by [1 - shock_size], divided by the benchmark. *)
Theorem shock_effect_formula w self md shock_size (k : Z) :
  holds w self md → prepared md → (1 ≤ k ≤ 3195)%Z →
  (∃ r w', shock self "Demand" shock_size k w = (Return r, w') ∧
     Shock_effect_data r
     = effect_of (md_leontief_inverse md) (md_demand md) (total_output self)
         shock_size <$> drawn (rng w) k) ∧
  (∃ r w', shock self "Supply" shock_size k w = (Return r, w') ∧
     Shock_effect_data r
     = effect_of (md_I_minus_A md) (md_output md) (total_final_demand self)
         shock_size <$> drawn (rng w) k).
Proof.
  intros Hh Hp Hk. split.
  - rewrite (shock_demand_spec w self md shock_size k Hh Hp) by lia.
    rewrite statistics_nonempty by (by apply effects_of_nonempty).
    eexists _, _. split; [reflexivity|]. simpl. unfold effects_of.
    rewrite decide_True by done. by rewrite (holds_total_output _ _ _ Hh).
  - rewrite (shock_supply_spec w self md shock_size k Hh Hp) by lia.
    rewrite statistics_nonempty by (by apply effects_of_nonempty).
    eexists _, _. split; [reflexivity|]. simpl. unfold effects_of.
    rewrite decide_False by done. by rewrite (holds_total_final_demand _ _ _ Hh).
Qed.

(** C4.  For a sample size between 1 and 3195 the sampling step of the
    experiment returns that many sector indices, pairwise distinct and all
    below 3195. *)
Theorem sample_distinct_in_range w (k : Z) :
  (1 ≤ k ≤ 3195)%Z →
  ∃ sectors w', random_choice 3195 k w = (Return sectors, w') ∧
    length sectors = Z.to_nat k ∧ NoDup sectors ∧
    Forall (λ sec, sec < 3195) sectors.
Proof.
  intros Hk. eexists _, _. split; [apply random_choice_spec; lia|].
  split; [apply drawn_length; lia|].
  split; [apply drawn_NoDup|apply drawn_in_range].
Qed.

(** C7.  Whatever the arguments and however the call ends, [shock] leaves
    the model as it was: the objects behind its attributes, its two totals
    and every other object that existed before the call are unchanged; the
    only writes go to the copies made inside the loop, which are new
    objects. *)
Theorem shock_leaves_model_unchanged w self md shock_type shock_size k o w' :
  holds w self md →
  shock self shock_type shock_size k w = (o, w') →
  model_state w' self = model_state w self ∧
  holds w' self md ∧
  (∀ l, l < length (heap w) → heap w' !! l = heap w !! l) ∧
  files w' = files w.
Proof.
  intros Hh Hshock. pose proof (shock_grown _ _ _ _ _ _ _ Hshock) as Hg.
  pose proof (grown_holds _ _ _ _ Hg Hh) as Hh'.
  split; [|split; [done|split; [intros l; by apply grown_lookup|apply Hg]]].
  unfold model_state.
  destruct Hh as [-> -> -> -> -> -> _ _], Hh' as [-> -> -> -> -> -> _ _].
  done.
Qed.

(** C9.  A shock type other than "Demand" and "Supply" makes [shock] raise
    the assertion error "Unknown shock type ..." at once: nothing is drawn,
    nothing is computed, the world is as before and no result is returned. *)
Theorem unknown_shock_type_fails w self shock_type shock_size k :
  shock_type ≠ "Demand" → shock_type ≠ "Supply" →
  shock self shock_type shock_size k w
  = (Raise (AssertionError ("Unknown shock type " +:+ shock_type)), w).
Proof.
  intros Hd Hs. unfold shock, shock_select.
  rewrite decide_False by done. rewrite decide_False by done. done.
Qed.

(** With sample size 0 the sampler is called and draws. *)
Lemma zero_sample_draws w self md shock_type shock_size :
  holds w self md → prepared md →
  shock_type = "Demand" ∨ shock_type = "Supply" →
  ∃ w', shock self shock_type shock_size 0 w = (statistics [], w') ∧
    rng w' = after_draw (rng w) ∧ heap w' = heap w.
Proof.
  intros Hh Hp [-> | ->].
  - rewrite (shock_demand_spec w self md shock_size 0 Hh Hp) by lia.
    eexists. split; [reflexivity|]. unfold after_shock, drawn. simpl.
    by rewrite app_nil_r.
  - rewrite (shock_supply_spec w self md shock_size 0 Hh Hp) by lia.
    eexists. split; [reflexivity|]. unfold after_shock, drawn. simpl.
    by rewrite app_nil_r.
Qed.

(** C8 (amended).  A sample size above 3195, or a negative one, makes the
    sampling call raise numpy's ValueError before anything is drawn: the
    world is unchanged and there is no result.  A sample size of 0 is not
    rejected: the generator is advanced by the draw, no sector is visited
    and the statistics are those of an empty effect sequence. *)
Theorem sample_size_out_of_bounds w self md shock_type shock_size (k : Z) :
  holds w self md → prepared md →
  shock_type = "Demand" ∨ shock_type = "Supply" →
  ((3195 < k)%Z →
     shock self shock_type shock_size k w
     = (Raise (ValueError
          "Cannot take a larger sample than population when 'replace=False'"), w)) ∧
  ((k < 0)%Z →
     shock self shock_type shock_size k w
     = (Raise (ValueError "negative dimensions are not allowed"), w)) ∧
  (k = 0%Z →
     ∃ w', shock self shock_type shock_size k w = (statistics [], w') ∧
       rng w' = after_draw (rng w) ∧ heap w' = heap w).
Proof.
  intros Hh Hp Hty. split; [|split].
  - intros Hk. unfold shock, shock_select.
    destruct Hty as [-> | ->]; simpl;
      unfold mbind at 1, M_bind at 1, mret, M_ret;
      by rewrite (bind_Raise _ _ _ _ _ (random_choice_too_large _ _ Hk)).
  - intros Hk. unfold shock, shock_select.
    destruct Hty as [-> | ->]; simpl;
      unfold mbind at 1, M_bind at 1, mret, M_ret;
      by rewrite (bind_Raise _ _ _ _ _ (random_choice_negative _ _ Hk)).
  - intros ->. by eapply zero_sample_draws.
Qed.

(** ** The coefficient matrix *)

Lemma model_of_table_coefficients d md :
  model_of_table d = Return md →
  coefficient_matrix (md_io md) (md_output md) = Return (md_A md).
Proof.
  intros Hmd.
  destruct (model_of_table_Return _ _ Hmd)
    as (out & a & ia & inv & _ & _ & Ha & _ & _ & ->).
  cbn [md_io md_output md_A]. unfold coefficient_matrix. by rewrite Ha.
Qed.

Lemma coefficient_matrix_lookup io out a i j row flow o :
  coefficient_matrix io out = Return a →
  io !! i = Some row → row !! j = Some flow → out !! j = Some o →
  ∃ arow, a !! i = Some arow ∧
    arow !! j = Some (if F.isnan (flow / o)%F then F.zero else (flow / o)%F).
Proof.
  unfold coefficient_matrix, np_divide. case_decide; [|discriminate].
  intros Ha Hi Hj Ho. apply Return_inj in Ha. rewrite <-Ha.
  unfold nan_to_zero. rewrite !list_lookup_fmap, Hi. eexists. split; [done|].
  by rewrite list_lookup_fmap, lookup_zip_with, Hj, Ho.
Qed.

(** C2 (amended).  Entry [i,j] of the coefficient matrix is the quotient of
    the flow by the total output of column [j], as numpy's division
    returns it, whenever both are finite and the total output is not zero
    (nothing is said about the size of that quotient); an entry whose
    quotient is NaN, as for a zero flow into a sector with zero total
    output, is exactly 0; and no entry is NaN. *)
Theorem coefficient_matrix_entries io out a i j row flow o :
  coefficient_matrix io out = Return a →
  io !! i = Some row → row !! j = Some flow → out !! j = Some o →
  ∃ arow x, a !! i = Some arow ∧ arow !! j = Some x ∧
    F.isnan x = false ∧
    (finite flow → finite o → o ≠ F.zero → x = (flow / o)%F) ∧
    (F.isnan (flow / o)%F = true → x = F.zero) ∧
    (flow = F.zero → o = F.zero → x = F.zero).
Proof.
  intros Ha Hi Hj Ho.
  destruct (coefficient_matrix_lookup _ _ _ _ _ _ _ _ Ha Hi Hj Ho)
    as (arow & Harow & Hx).
  eexists arow, _. split; [done|]. split; [done|].
  split; [by destruct (F.isnan (flow / o)%F) eqn:Hq|]. split; [|split].
  - destruct flow as [f| | |], o as [b| | |]; try done. intros _ _ Hb.
    assert (b ≠ Q2Qc 0) as Hb' by (intros ->; by apply Hb).
    unfold F.div. by rewrite decide_False.
  - by intros ->.
  - by intros -> ->.
Qed.

(** ** No shock *)

Lemma shocked_zero v sec : shocked v F.zero sec = v.
Proof.
  unfold shocked. apply list_insert_id'. intros Hsec.
  rewrite mul_one_minus_zero. by apply list_lookup_lookup_total_lt.
Qed.

Lemma effect_of_zero m v benchmark sec :
  effect_of m v benchmark F.zero sec = baseline m v benchmark.
Proof. unfold effect_of, baseline. by rewrite shocked_zero. Qed.

Lemma effects_of_zero md shock_type sectors :
  effects_of md shock_type F.zero sectors
  = replicate (length sectors)
      (if decide (shock_type = "Demand")
       then baseline (md_leontief_inverse md) (md_demand md) (pd_sum (md_output md))
       else baseline (md_I_minus_A md) (md_output md) (pd_sum (md_demand md))).
Proof.
  unfold effects_of. case_decide; apply const_fmap; intros i sec _;
    apply effect_of_zero.
Qed.

(** A demand experiment with shock size 0 on one sector. *)
Lemma zero_shock_one_sector w self md b :
  holds w self md → prepared md →
  baseline (md_leontief_inverse md) (md_demand md) (pd_sum (md_output md)) = b →
  ∃ w', shock self "Demand" F.zero 1 w
        = (Return (mkResult [b] (np_mean [b]) (np_std [b])
                     (quantile_linear [b] (Q2Qc (5 # 10)))
                     (quantile_linear [b] (Q2Qc (95 # 100)))
                     (quantile_linear [b] (Q2Qc (99 # 100)))), w').
Proof.
  intros Hh Hp Hb.
  rewrite (shock_demand_spec w self md F.zero 1 Hh Hp) by lia.
  rewrite effects_of_zero, drawn_length by lia. rewrite decide_True by done.
  rewrite Hb. change (Z.to_nat 1) with 1. cbn [replicate]. by eexists.
Qed.

(** C3 (amended).  With shock size 0 the vector is left as it is and every
    sampled sector gets the same effect, the baseline
    [1 - sum(matrix . vector) / benchmark]; this is exactly 0 when the sum
    equals the benchmark and the benchmark is finite and not zero. *)
Theorem zero_shock_gives_baseline w self md (k : Z) :
  holds w self md → prepared md → (1 ≤ k ≤ 3195)%Z →
  (∃ r w', shock self "Demand" F.zero k w = (Return r, w') ∧
     Shock_effect_data r
     = replicate (Z.to_nat k)
         (baseline (md_leontief_inverse md) (md_demand md) (total_output self))) ∧
  (∃ r w', shock self "Supply" F.zero k w = (Return r, w') ∧
     Shock_effect_data r
     = replicate (Z.to_nat k)
         (baseline (md_I_minus_A md) (md_output md) (total_final_demand self))) ∧
  (∀ m v benchmark,
     np_sum (mat_vec m v) = benchmark →
     finite benchmark → benchmark ≠ F.zero →
     baseline m v benchmark = F.zero).
Proof.
  intros Hh Hp Hk. split; [|split].
  - rewrite (shock_demand_spec w self md F.zero k Hh Hp) by lia.
    rewrite statistics_nonempty by (by apply effects_of_nonempty).
    eexists _, _. split; [reflexivity|]. simpl.
    rewrite effects_of_zero, drawn_length by lia.
    rewrite decide_True by done. by rewrite (holds_total_output _ _ _ Hh).
  - rewrite (shock_supply_spec w self md F.zero k Hh Hp) by lia.
    rewrite statistics_nonempty by (by apply effects_of_nonempty).
    eexists _, _. split; [reflexivity|]. simpl.
    rewrite effects_of_zero, drawn_length by lia.
    rewrite decide_False by done. by rewrite (holds_total_final_demand _ _ _ Hh).
  - intros m v benchmark Hsum Hfin Hnz. unfold baseline. rewrite Hsum.
    by apply one_minus_div_self.
Qed.

(** ** The aggregator *)

Lemma dict_append_spec w l (dict : gmap string (list float64)) key xs x :
  heap w !! l = Some (Dict dict) → dict !! key = Some xs →
  dict_append l key x w
  = (Return (), set_heap (<[l := Dict (<[key := xs ++ [x]]> dict)]> (heap w)) w).
Proof. intros Hl Hkey. unfold dict_append. by rewrite Hl, Hkey. Qed.

Lemma run_replication_spec w self d md shock_size a b c :
  files w !! "ICIO2021_2018.csv" = Some d →
  model_of_table d = Return md →
  shock_sizes self = configured_sizes →
  heap w !! return_result self = Some (Dict (results a b c)) →
  ∃ w', run_replication self shock_size w = (Return (), w') ∧
    files w' = files w ∧ rng w' = after_draw (rng w) ∧
    heap w' !! return_result self
    = Some (Dict
        (let e := replication_statistic md shock_size (rng w) in
         if F.eqb shock_size (F.of_Q (3 # 10)) then results (a ++ [e]) b c
         else if F.eqb shock_size (F.of_Q (7 # 10)) then results a (b ++ [e]) c
         else results a b (c ++ [e]))).
Proof.
  intros Hfile Hmd Hsizes Hret.
  destruct (constructed w d md Hfile Hmd)
    as (L & w1 & Hinit & Hh & Hp & Hheap & Hrng & Hfiles).
  unfold run_replication. rewrite (bind_Return _ _ _ _ _ Hinit).
  assert (Hshock := shock_demand_spec w1 L md shock_size default_sample_size Hh Hp).
  rewrite statistics_nonempty in Hshock
    by (apply effects_of_nonempty; unfold default_sample_size; lia).
  unfold default_shock_type.
  rewrite (bind_Return _ _ _ _ _ (Hshock ltac:(unfold default_sample_size; lia))).
  clear Hshock. rewrite Hsizes. unfold configured_sizes, list_getitem.
  cbn [lookup list_lookup]. unfold mbind at 1, M_bind at 1, mret at 1, M_ret at 1.
  cbn [Upper_1_quantile].
  assert (Hret' : heap (after_shock w1 (md_demand md) shock_size default_sample_size)
                    !! return_result self = Some (Dict (results a b c))).
  { unfold after_shock. cbn [heap]. rewrite Hheap.
    by do 2 apply lookup_old. }
  assert (Hlt : return_result self
                < length (heap (after_shock w1 (md_demand md) shock_size
                                  default_sample_size)))
    by (by eapply lookup_lt_Some).
  unfold replication_statistic, default_shock_type. cbn zeta. rewrite Hrng.
  set (e := quantile_linear _ _).
  set (w2 := after_shock _ _ _ _) in *.
  assert (Hw2 : files w2 = files w ∧ rng w2 = after_draw (rng w)).
  { unfold w2, after_shock. cbn [files rng]. by rewrite Hfiles, Hrng. }
  destruct Hw2 as [Hf2 Hr2].
  destruct (F.eqb shock_size (F.of_Q (3 # 10))).
  { rewrite (dict_append_spec _ _ _ _ _ _ Hret' (results_30 _ _ _)).
    eexists. split; [done|]. cbn [files rng heap set_heap].
    rewrite list_lookup_insert_eq by done. by rewrite results_insert_30. }
  unfold mbind at 1, M_bind at 1, mret at 1, M_ret at 1.
  destruct (F.eqb shock_size (F.of_Q (7 # 10))).
  { rewrite (dict_append_spec _ _ _ _ _ _ Hret' (results_70 _ _ _)).
    eexists. split; [done|]. cbn [files rng heap set_heap].
    rewrite list_lookup_insert_eq by done. by rewrite results_insert_70. }
  rewrite (dict_append_spec _ _ _ _ _ _ Hret' (results_100 _ _ _)).
  eexists. split; [done|]. cbn [files rng heap set_heap].
  rewrite list_lookup_insert_eq by done. by rewrite results_insert_100.
Qed.

Lemma replications_length md size g n : length (replications md size g n) = n.
Proof. unfold replications. by rewrite length_fmap, length_seq. Qed.

Lemma replications_S md size g n :
  replications md size g (S n)
  = replication_statistic md size g :: replications md size (after_draw g) n.
Proof.
  unfold replications. cbn [seq fmap list_fmap]. f_equal.
  rewrite <-fmap_S_seq, <-list_fmap_compose. apply list_fmap_ext.
  intros i x _. cbn [compose]. by rewrite Nat.iter_succ_r.
Qed.

(** The loop over the replications of one shock size. *)
Lemma replications_spec self d md shock_size (xs : list nat) : ∀ w a b c,
  files w !! "ICIO2021_2018.csv" = Some d →
  model_of_table d = Return md →
  shock_sizes self = configured_sizes →
  heap w !! return_result self = Some (Dict (results a b c)) →
  ∃ w', for_each xs () (λ _ replication, run_replication self shock_size) w
        = (Return (), w') ∧
    files w' = files w ∧ rng w' = Nat.iter (length xs) after_draw (rng w) ∧
    heap w' !! return_result self
    = Some (Dict (appended shock_size
                    (replications md shock_size (rng w) (length xs)) a b c)).
Proof.
  induction xs as [|x xs IH]; intros w a b c Hfile Hmd Hsizes Hret.
  - exists w. split; [done|]. split; [done|]. split; [done|].
    unfold appended. cbn [length replications seq fmap list_fmap].
    rewrite !app_nil_r. by repeat case_match.
  - destruct (run_replication_spec w self d md shock_size a b c
                Hfile Hmd Hsizes Hret) as (w1 & Hrun & Hf1 & Hr1 & Hh1).
    cbn [for_each]. rewrite (bind_Return _ _ _ _ _ Hrun).
    cbn zeta in Hh1. cbn [length]. rewrite replications_S.
    unfold appended in *. rewrite <-Hf1 in Hfile.
    destruct (F.eqb shock_size (F.of_Q (3 # 10)));
      [|destruct (F.eqb shock_size (F.of_Q (7 # 10)))];
      destruct (IH w1 _ _ _ Hfile Hmd Hsizes Hh1) as (w' & Hloop & Hf & Hr & Hh);
      exists w'; (split; [done|]); (split; [congruence|]);
      (split; [by rewrite Hr, Hr1, Nat.iter_succ_r|]);
      by rewrite Hh, Hr1, <-app_assoc.
Qed.

(** One call of [run]: the three batches, each from the state of the
    generator the previous batch left. *)
Lemma run_spec w self d md a b c :
  files w !! "ICIO2021_2018.csv" = Some d →
  model_of_table d = Return md →
  shock_sizes self = configured_sizes →
  heap w !! return_result self = Some (Dict (results a b c)) →
  let n := Z.to_nat (number_of_replications self) in
  let g1 := Nat.iter n after_draw (rng w) in
  let g2 := Nat.iter n after_draw g1 in
  ∃ w', run self w = (Return (return_result self), w') ∧
    files w' = files w ∧ rng w' = Nat.iter n after_draw g2 ∧
    heap w' !! return_result self
    = Some (Dict (results (a ++ replications md (F.of_Q (3 # 10)) (rng w) n)
                          (b ++ replications md (F.of_Q (7 # 10)) g1 n)
                          (c ++ replications md (F.of_Q 1) g2 n))).
Proof.
  intros Hfile Hmd Hsizes Hret n g1 g2.
  assert (Hn : length (range (number_of_replications self)) = n)
    by (unfold range; by rewrite length_seq).
  destruct (replications_spec self d md (F.of_Q (3 # 10))
              (range (number_of_replications self)) w a b c Hfile Hmd Hsizes Hret)
    as (w1 & Hrun1 & Hf1 & Hr1 & Hh1).
  rewrite Hn in Hr1, Hh1. change (appended _ ?es a b c) with (results (a ++ es) b c) in Hh1.
  rewrite <-Hf1 in Hfile.
  destruct (replications_spec self d md (F.of_Q (7 # 10))
              (range (number_of_replications self)) w1 _ _ _ Hfile Hmd Hsizes Hh1)
    as (w2 & Hrun2 & Hf2 & Hr2 & Hh2).
  rewrite Hn in Hr2, Hh2.
  change (appended _ ?es ?a' b c) with (results a' (b ++ es) c) in Hh2.
  rewrite <-Hf2 in Hfile.
  destruct (replications_spec self d md (F.of_Q 1)
              (range (number_of_replications self)) w2 _ _ _ Hfile Hmd Hsizes Hh2)
    as (w3 & Hrun3 & Hf3 & Hr3 & Hh3).
  rewrite Hn in Hr3, Hh3.
  change (appended _ ?es ?a' ?b' c) with (results a' b' (c ++ es)) in Hh3.
  exists w3. unfold run. rewrite Hsizes. unfold configured_sizes. cbn [for_each].
  rewrite (bind_Return _ _ _ () w3).
  - subst g1 g2. rewrite <-Hr1, <-Hr2.
    split; [reflexivity|]. split; [congruence|]. split; [exact Hr3|exact Hh3].
  - rewrite (bind_Return _ _ _ _ _ Hrun1), (bind_Return _ _ _ _ _ Hrun2).
    by rewrite (bind_Return _ _ _ _ _ Hrun3).
Qed.

(** The statistic of a replication is the 99th percentile that [shock]
    returns to [run]. *)
Lemma replication_statistic_spec w self md shock_size :
  holds w self md → prepared md →
  ∃ r w', shock self default_shock_type shock_size default_sample_size w
          = (Return r, w') ∧
    Upper_1_quantile r = replication_statistic md shock_size (rng w).
Proof.
  intros Hh Hp. unfold default_shock_type.
  rewrite (shock_demand_spec w self md shock_size default_sample_size Hh Hp)
    by (unfold default_sample_size; lia).
  rewrite statistics_nonempty
    by (apply effects_of_nonempty; unfold default_sample_size; lia).
  by eexists _, _.
Qed.

Lemma ReproducibleResult___init___spec (r : Z) w :
  ReproducibleResult___init__ r w
  = (Return (mkReproducibleResult r configured_sizes (length (heap w))),
     set_heap (heap w ++ [Dict (results [] [] [])]) w).
Proof. done. Qed.

(** C5.  [run] on a new aggregator, configured with the shock sizes 0.3,
    0.7 and 1.0 and [r] replications, returns its dictionary; the dictionary
    has exactly three keys and each key holds exactly [r] values: the 99th
    percentiles of the replications run for that shock size, in the order
    in which they were run. *)
Theorem run_collects_percentiles w d md (r : Z) :
  files w !! "ICIO2021_2018.csv" = Some d →
  model_of_table d = Return md →
  (0 ≤ r)%Z →
  let n := Z.to_nat r in
  let g1 := Nat.iter n after_draw (rng w) in
  let g2 := Nat.iter n after_draw g1 in
  ∃ self w0 w' result,
    ReproducibleResult___init__ r w = (Return self, w0) ∧
    shock_sizes self = [F.of_Q (3 # 10); F.of_Q (7 # 10); F.of_Q 1] ∧
    run self w0 = (Return (return_result self), w') ∧
    heap w' !! return_result self = Some (Dict result) ∧
    size result = 3 ∧
    result !! "for_30%_shock_size"
    = Some (replications md (F.of_Q (3 # 10)) (rng w) n) ∧
    result !! "for_70%_shock_size"
    = Some (replications md (F.of_Q (7 # 10)) g1 n) ∧
    result !! "for_100%_shock_size"
    = Some (replications md (F.of_Q 1) g2 n) ∧
    Forall (λ key, ∃ xs, result !! key = Some xs ∧ Z.of_nat (length xs) = r)
      ["for_30%_shock_size"; "for_70%_shock_size"; "for_100%_shock_size"].
Proof.
  intros Hfile Hmd Hr n g1 g2.
  set (self := mkReproducibleResult r configured_sizes (length (heap w))).
  set (w0 := set_heap (heap w ++ [Dict (results [] [] [])]) w).
  destruct (run_spec w0 self d md [] [] [] Hfile Hmd eq_refl (lookup_fresh _ _))
    as (w' & Hrun & _ & _ & Hres).
  cbn [app number_of_replications self rng w0 set_rng set_heap] in Hres.
  eexists self, w0, w', _. split; [apply ReproducibleResult___init___spec|].
  split; [done|]. split; [exact Hrun|]. split; [exact Hres|].
  split; [apply results_size|]. split; [apply results_30|].
  split; [apply results_70|]. split; [apply results_100|].
  repeat constructor; eexists;
    (split; [first [apply results_30|apply results_70|apply results_100]|]);
    rewrite replications_length; lia.
Qed.

Lemma run_times_spec self d md k : ∀ w a b c,
  files w !! "ICIO2021_2018.csv" = Some d →
  model_of_table d = Return md →
  shock_sizes self = configured_sizes →
  heap w !! return_result self = Some (Dict (results a b c)) →
  ∃ w' a' b' c',
    run_times k self w = (Return (), w') ∧ files w' = files w ∧
    heap w' !! return_result self
    = Some (Dict (results (a ++ a') (b ++ b') (c ++ c'))) ∧
    Forall (λ xs, length xs = k * Z.to_nat (number_of_replications self))
      [a'; b'; c'].
Proof.
  induction k as [|k IH]; intros w a b c Hfile Hmd Hsizes Hret.
  - exists w, [], [], []. rewrite !app_nil_r. split; [done|]. split; [done|].
    split; [done|]. by repeat constructor.
  - destruct (run_spec w self d md a b c Hfile Hmd Hsizes Hret)
      as (w1 & Hrun & Hf1 & _ & Hh1). cbv zeta in Hh1.
    rewrite <-Hf1 in Hfile.
    destruct (IH w1 _ _ _ Hfile Hmd Hsizes Hh1)
      as (w' & a' & b' & c' & Hrest & Hf & Hh & Hlen).
    match type of Hh1 with
    | _ = Some (Dict (results (a ++ ?e1) (b ++ ?e2) (c ++ ?e3))) =>
        exists w', (e1 ++ a'), (e2 ++ b'), (e3 ++ c')
    end.
    cbn [run_times]. rewrite (bind_Return _ _ _ _ _ Hrun). split; [exact Hrest|].
    split; [congruence|]. split; [rewrite !app_assoc; exact Hh|].
    apply Forall_cons in Hlen as [Ha Hlen]. apply Forall_cons in Hlen as [Hb Hlen].
    apply Forall_cons in Hlen as [Hc _].
    repeat constructor; rewrite length_app, replications_length; lia.
Qed.

Lemma run_times_add self j m : ∀ w wj,
  run_times j self w = (Return (), wj) →
  run_times (j + m) self w = run_times m self wj.
Proof.
  induction j as [|j IH]; intros w wj.
  - by intros [= ->].
  - cbn [run_times Nat.add]. unfold mbind, M_bind.
    destruct (run self w) as [[e|l] w1]; [done|]. apply IH.
Qed.

(** C10.  [run] appends: after [k] calls on the same aggregator every key
    holds exactly [k] times [r] values, and what the key held after [j] of
    these calls ([j] at most [k]) is a prefix of it. *)
Theorem run_accumulates w d md (r : Z) (j k : nat) :
  files w !! "ICIO2021_2018.csv" = Some d →
  model_of_table d = Return md →
  (0 ≤ r)%Z → j ≤ k →
  ∃ self w0 wj wk aj bj cj ak bk ck,
    ReproducibleResult___init__ r w = (Return self, w0) ∧
    run_times j self w0 = (Return (), wj) ∧
    run_times k self w0 = (Return (), wk) ∧
    heap wj !! return_result self = Some (Dict (results aj bj cj)) ∧
    heap wk !! return_result self = Some (Dict (results ak bk ck)) ∧
    Forall (λ xs, Z.of_nat (length xs) = (Z.of_nat k * r)%Z) [ak; bk; ck] ∧
    aj `prefix_of` ak ∧ bj `prefix_of` bk ∧ cj `prefix_of` ck.
Proof.
  intros Hfile Hmd Hr Hjk.
  set (self := mkReproducibleResult r configured_sizes (length (heap w))).
  set (w0 := set_heap (heap w ++ [Dict (results [] [] [])]) w).
  destruct (run_times_spec self d md j w0 [] [] [] Hfile Hmd eq_refl
              (lookup_fresh _ _))
    as (wj & aj & bj & cj & Hrunj & Hfj & Hhj & Hlenj).
  cbn [app] in Hhj.
  assert (Hfile' : files wj !! "ICIO2021_2018.csv" = Some d)
    by (rewrite Hfj; exact Hfile).
  destruct (run_times_spec self d md (k - j) wj aj bj cj Hfile' Hmd eq_refl Hhj)
    as (wk & a' & b' & c' & Hrunk & _ & Hhk & Hlenk).
  rewrite <-(run_times_add self j (k - j) w0 wj Hrunj) in Hrunk.
  replace (j + (k - j)) with k in Hrunk by lia.
  exists self, w0, wj, wk, aj, bj, cj, (aj ++ a'), (bj ++ b'), (cj ++ c').
  split; [apply ReproducibleResult___init___spec|].
  split; [exact Hrunj|]. split; [exact Hrunk|]. split; [exact Hhj|].
  split; [exact Hhk|]. split; [|by repeat split; eexists].
  cbn [number_of_replications self] in Hlenj, Hlenk.
  apply Forall_cons in Hlenj as [Ha Hlenj]. apply Forall_cons in Hlenj as [Hb Hlenj].
  apply Forall_cons in Hlenj as [Hc _].
  apply Forall_cons in Hlenk as [Ha' Hlenk]. apply Forall_cons in Hlenk as [Hb' Hlenk].
  apply Forall_cons in Hlenk as [Hc' _].
  repeat constructor; rewrite length_app; nia.
Qed.

(** ** The checks of the constructor *)

Lemma init_file_missing w :
  files w !! "ICIO2021_2018.csv" = None →
  Leontief_Model___init__ w = (Raise (FileNotFoundError "ICIO2021_2018.csv"), w).
Proof.
  intros Hfile. unfold Leontief_Model___init__.
  apply bind_Raise. unfold read_csv. by rewrite Hfile.
Qed.

(** X1.  A table whose first 3195 row labels are not its column labels 1 to
    3195 is rejected before anything is extracted: the constructor raises
    the assertion error when the two sequences have the same length, the
    error of the comparison when they do not, and the world is as it
    was. *)
Theorem misaligned_table_rejected w d :
  files w !! "ICIO2021_2018.csv" = Some d →
  row_labels d ≠ column_labels d →
  Leontief_Model___init__ w
  = (Raise (if decide (length (row_labels d) = length (column_labels d))
            then AssertionError ""
            else ValueError "Lengths must match to compare"), w).
Proof.
  intros Hfile Hne. unfold Leontief_Model___init__.
  rewrite (bind_Return _ _ _ d w) by (unfold read_csv; by rewrite Hfile).
  unfold labels_all_equal. case_decide as Hlen.
  - rewrite bool_decide_eq_false_2 by done.
    rewrite (bind_Return _ _ _ false w) by done. by apply bind_Raise.
  - by apply bind_Raise.
Qed.

Lemma labels_all_equal_true a b :
  labels_all_equal a b = Return true → a = b.
Proof.
  unfold labels_all_equal. case_decide; [|discriminate].
  intros Hb. apply Return_inj in Hb. by apply bool_decide_eq_true in Hb.
Qed.

Lemma extract_output_cells d out :
  extract_output d = Return out →
  Forall (λ r, 3598 ≤ length (cells r)) (take 3195 (rows d)).
Proof.
  unfold extract_output. case_decide; [|discriminate].
  destruct (mapM _ _) as [v|] eqn:Hv; [|discriminate].
  intros _.
  assert (Hsome : is_Some (mapM (λ r, cells r !! 3597) (take 3195 (rows d))))
    by (by rewrite Hv).
  apply mapM_is_Some_1 in Hsome. eapply Forall_impl; [exact Hsome|].
  intros r [x Hx]. cbn [compose] in Hx. apply lookup_lt_Some in Hx. lia.
Qed.

(** A model the constructor returns is the one [init_spec] describes. *)
Lemma init_Return_exact w self w' :
  Leontief_Model___init__ w = (Return self, w') →
  ∃ d md, files w !! "ICIO2021_2018.csv" = Some d ∧
    model_of_table d = Return md ∧
    self = model_at (length (heap w)) d md ∧
    w' = set_heap (heap w ++ objects_of md) w.
Proof.
  intros Hinit. destruct (files w !! "ICIO2021_2018.csv") as [d|] eqn:Hfile.
  - destruct (model_of_table d) as [e|md] eqn:Hmd.
    + destruct (init_raises w d e Hfile Hmd) as [w1 Hraise]. congruence.
    + exists d, md. rewrite (init_spec w d md Hfile Hmd) in Hinit.
      split; [done|]. split; [done|]. split; congruence.
  - rewrite init_file_missing in Hinit by done. discriminate Hinit.
Qed.

(** X2.  Every table the constructor accepts has the full layout: the
    table kept in [df] is the file's, with at least 3195 data rows and 3196
    columns, the first 3195 row labels equal to the column labels 1 to
    3195, and in each of the first 3195 rows a cell in column 3598. *)
Theorem accepted_table_layout w self w' :
  Leontief_Model___init__ w = (Return self, w') →
  files w !! "ICIO2021_2018.csv" = Some (df self) ∧
  3195 ≤ length (rows (df self)) ∧
  3196 ≤ length (columns (df self)) ∧
  label <$> take 3195 (rows (df self)) = take 3195 (drop 1 (columns (df self))) ∧
  Forall (λ r, 3598 ≤ length (cells r)) (take 3195 (rows (df self))).
Proof.
  intros Hinit.
  destruct (init_Return_exact _ _ _ Hinit) as (d & md & Hfile & Hmd & -> & _).
  cbn [df model_at].
  destruct (model_of_table_Return _ _ Hmd)
    as (out & a & ia & inv & Hlab & Hout & _ & _ & _ & Hcontent).
  pose proof (model_of_table_prepared _ _ Hmd) as Hp.
  apply labels_all_equal_true in Hlab. unfold row_labels, column_labels in Hlab.
  assert (Hrows : length (take 3195 (rows d)) = 3195).
  { transitivity (length (md_demand md)); [|apply Hp].
    rewrite Hcontent. cbn [md_demand]. unfold extract_demand.
    by rewrite length_fmap. }
  split; [done|]. split; [rewrite length_take in Hrows; lia|].
  split; [|split; [done|by eapply extract_output_cells]].
  apply (f_equal length) in Hlab.
  rewrite length_fmap, Hrows, length_take, length_drop in Hlab. lia.
Qed.

(** X3.  The attributes of a constructed model are six new objects at
    consecutive locations, one for each of [io_matrix], [demand], [output],
    [A], [I_minus_A] and [leontief_inverse]; they hold the flows and the
    final demand of the table, its output column, the coefficient matrix of
    the flows and the output, the identity minus that matrix and the
    inverse numpy computes of it, and the two totals are the sums of the
    output and of the final demand. *)
Theorem constructor_attributes w self w' :
  Leontief_Model___init__ w = (Return self, w') →
  ∃ md, holds w' self md ∧
    [io_matrix self; demand self; output self; A self; I_minus_A self;
     leontief_inverse self] = seq (length (heap w)) 6 ∧
    length (heap w') = length (heap w) + 6 ∧
    md_io md = extract_io_matrix (df self) ∧
    md_demand md = extract_demand (df self) ∧
    extract_output (df self) = Return (md_output md) ∧
    coefficient_matrix (md_io md) (md_output md) = Return (md_A md) ∧
    identity_minus (md_A md) = Return (md_I_minus_A md) ∧
    np_linalg_inv (md_I_minus_A md) = Return (md_leontief_inverse md).
Proof.
  intros Hinit.
  destruct (init_Return_exact _ _ _ Hinit) as (d & md & Hfile & Hmd & -> & ->).
  exists md. destruct w as [h g fs]. split; [apply model_at_holds|].
  cbn [heap set_heap io_matrix demand output A I_minus_A leontief_inverse
       model_at df].
  split; [cbn [seq]; by rewrite !Nat.add_succ_r, Nat.add_0_r|].
  split; [by rewrite length_app|].
  destruct (model_of_table_Return _ _ Hmd)
    as (out & a & ia & inv & _ & Hout & Ha & Hia & Hinv & ->).
  cbn [md_io md_demand md_output md_A md_I_minus_A md_leontief_inverse].
  split; [done|]. split; [done|]. split; [done|].
  split; [|done]. unfold coefficient_matrix. by rewrite Ha.
Qed.

(** When [model_of_table] raises, the constructor raises the same error
    with at most five new objects in the heap. *)
Lemma init_raises_world w d e :
  files w !! "ICIO2021_2018.csv" = Some d →
  model_of_table d = Raise e →
  ∃ ext, length ext ≤ 5 ∧
    Leontief_Model___init__ w = (Raise e, set_heap (heap w ++ ext) w).
Proof.
  intros Hfile Hmd. destruct w as [h g fs]. simpl in Hfile.
  apply model_of_table_Raise in Hmd. unfold set_heap. cbn [heap rng files].
  assert (Hgen : ∀ h0, h0 = h → ∃ ext, length ext ≤ 5 ∧
            Leontief_Model___init__ (mkWorld h g fs)
            = (Raise e, mkWorld (h0 ++ ext) g fs)); [|by apply Hgen].
  intros h0 Hh0. unfold Leontief_Model___init__.
  rewrite (bind_Return _ _ _ d (mkWorld h g fs))
    by (unfold read_csv; simpl; by rewrite Hfile).
  destruct Hmd as [Hlab|[[Hlab ->]|[Hlab Hmd]]].
  { exists []. split; [simpl; lia|]. rewrite app_nil_r, Hh0.
    apply bind_Raise. unfold lift. by rewrite Hlab. }
  { exists []. split; [simpl; lia|]. rewrite app_nil_r, Hh0.
    step ltac:(unfold lift; by rewrite Hlab). by apply bind_Raise. }
  step ltac:(unfold lift; by rewrite Hlab). step ltac:(reflexivity).
  rewrite <-(app_nil_r h). subst h0.
  step ltac:(apply alloc_ext).
  step ltac:(apply alloc_ext).
  destruct Hmd as [Hout|(out & Hout & Hmd)].
  { eexists. split; [|apply bind_Raise; unfold lift; by rewrite Hout]. simpl. lia. }
  step ltac:(unfold lift; by rewrite Hout).
  step ltac:(apply alloc_ext).
  step ltac:(by apply read_ndarray_ext).
  step ltac:(by apply (read_series_ext _ _ _ _ 2)).
  destruct Hmd as [Ha|(a & Ha & Hmd)].
  { eexists. split; [|apply bind_Raise; unfold lift; by rewrite Ha]. simpl. lia. }
  step ltac:(unfold lift; by rewrite Ha).
  step ltac:(apply alloc_ext).
  step ltac:(by apply (ndarray_fill_nan_ext _ _ _ _ 3)).
  step ltac:(by apply (read_ndarray_ext _ _ _ _ 3)).
  destruct Hmd as [Hia|(ia & Hia & Hinv)].
  { eexists. split; [|apply bind_Raise; unfold lift; by rewrite Hia]. simpl. lia. }
  step ltac:(unfold lift; by rewrite Hia).
  step ltac:(apply alloc_ext).
  eexists. split; [|apply bind_Raise; unfold lift; by rewrite Hinv]. simpl. lia.
Qed.

(** However the constructor ends, its world is the one it started in with
    at most six objects added. *)
Lemma init_world w o w' :
  Leontief_Model___init__ w = (o, w') →
  ∃ ext, length ext ≤ 6 ∧ w' = set_heap (heap w ++ ext) w.
Proof.
  intros Hinit. destruct (files w !! "ICIO2021_2018.csv") as [d|] eqn:Hfile.
  - destruct (model_of_table d) as [e|md] eqn:Hmd.
    + destruct (init_raises_world w d e Hfile Hmd) as (ext & Hlen & Hraise).
      exists ext. split; [lia|]. congruence.
    + rewrite (init_spec w d md Hfile Hmd) in Hinit. exists (objects_of md).
      split; [done|]. congruence.
  - rewrite init_file_missing in Hinit by done. exists [].
    split; [simpl; lia|]. destruct w as [h g fs]. unfold set_heap.
    cbn [heap rng files]. rewrite app_nil_r. congruence.
Qed.

Lemma init_grown w o w' : Leontief_Model___init__ w = (o, w') → grown w w'.
Proof.
  intros Hinit. destruct (init_world _ _ _ Hinit) as (ext & _ & ->).
  split; [by exists ext|done].
Qed.

(** X4.  However the constructor ends, with a model or with any of its
    errors, every object that existed before is unchanged, at most six
    objects were added, and the random generator and the files are as
    before. *)
Theorem constructor_keeps_world w o w' :
  Leontief_Model___init__ w = (o, w') →
  (∀ l, l < length (heap w) → heap w' !! l = heap w !! l) ∧
  length (heap w) ≤ length (heap w') ≤ length (heap w) + 6 ∧
  rng w' = rng w ∧ files w' = files w.
Proof.
  intros Hinit. destruct (init_world _ _ _ Hinit) as (ext & Hlen & ->).
  cbn [heap set_heap rng files]. split; [intros l Hl; by apply lookup_app_l|].
  rewrite length_app. split; [lia|done].
Qed.

(** ** A balanced table *)




(** ** What an experiment leaves behind *)

(** X8.  A demand or supply experiment with a sample size between 1 and
    3195 on a prepared model returns as many effects as the sample size,
    advances the random generator by one permutation whatever the sample
    size, and adds to the heap one Series per sampled sector: a copy of the
    vector of length 3195 that differs from it in the entry of one sector
    at most. *)
Theorem experiment_footprint w self md shock_type shock_size (k : Z) :
  holds w self md → prepared md →
  shock_type = "Demand" ∨ shock_type = "Supply" → (1 ≤ k ≤ 3195)%Z →
  let v := if decide (shock_type = "Demand") then md_demand md
           else md_output md in
  ∃ r w', shock self shock_type shock_size k w = (Return r, w') ∧
    length (Shock_effect_data r) = Z.to_nat k ∧
    rng w' = after_draw (rng w) ∧ files w' = files w ∧
    ∃ copies, heap w' = heap w ++ (Series <$> copies) ∧
      length copies = Z.to_nat k ∧
      Forall (λ c, length c = 3195 ∧
                ∃ sec, sec < 3195 ∧ ∀ i, i ≠ sec → c !! i = v !! i) copies.
Proof.
  intros Hh Hp Hty Hk v.
  assert (Hshock : shock self shock_type shock_size k w
    = (statistics (effects_of md shock_type shock_size (drawn (rng w) k)),
       after_shock w v shock_size k)).
  { subst v. destruct Hty as [-> | ->].
    - rewrite decide_True by done. apply shock_demand_spec; [done..|lia].
    - rewrite decide_False by done. apply shock_supply_spec; [done..|lia]. }
  assert (Hv : length v = 3195).
  { subst v. case_decide; [apply (prepared_demand _ Hp)|apply (prepared_output _ Hp)]. }
  rewrite Hshock, (statistics_nonempty _ (effects_of_nonempty _ _ _ _ k Hk)).
  eexists _, _. split; [reflexivity|]. cbn [Shock_effect_data].
  split; [by rewrite effects_of_length, drawn_length by lia|].
  unfold after_shock. cbn [rng files heap]. split; [done|]. split; [done|].
  exists ((λ sec, shocked v shock_size sec) <$> drawn (rng w) k).
  split; [by rewrite <-list_fmap_compose|].
  split; [by rewrite length_fmap, drawn_length by lia|].
  apply Forall_fmap. eapply Forall_impl; [apply drawn_in_range|].
  intros sec Hsec. cbn [compose]. unfold shocked.
  split; [by rewrite length_insert|]. exists sec. split; [done|].
  intros i Hi. by apply list_lookup_insert_ne.
Qed.

(** ** Percentiles and the order of the effects *)

Lemma np_quantile_Permutation l l' q :
  l ≡ₚ l' → np_quantile l q = np_quantile l' q.
Proof.
  intros Hp. unfold np_quantile. destruct l as [|x l], l' as [|x' l']; try done.
  - by apply Permutation_nil_cons in Hp.
  - symmetry in Hp. by apply Permutation_nil_cons in Hp.
  - f_equal. by apply quantile_linear_Permutation.
Qed.

(** X9.  The median and the two upper percentiles of a result do not
    depend on the order of the effects: a quantile is taken of the sorted
    effects, so for a rearrangement of the effects the three are the same,
    and the computation fails for the one exactly when it fails for the
    other.  The mean and the standard deviation are left out: they are
    sums taken in the order of the list, and rounding makes a sum depend on
    that order. *)
Theorem percentiles_ignore_order l l' :
  l ≡ₚ l' →
  (∀ q, np_quantile l' q = np_quantile l q) ∧
  (λ r, (Median r, Upper_5_quantile r, Upper_1_quantile r)) <$> statistics l'
  = (λ r, (Median r, Upper_5_quantile r, Upper_1_quantile r)) <$> statistics l.
Proof.
  intros Hp. split; [intros q; symmetry; by apply np_quantile_Permutation|].
  unfold statistics.
  rewrite (np_quantile_Permutation l l' (Q2Qc (5 # 10)) Hp),
    (np_quantile_Permutation l l' (Q2Qc (95 # 100)) Hp),
    (np_quantile_Permutation l l' (Q2Qc (99 # 100)) Hp).
  destruct (np_quantile l' (Q2Qc (5 # 10))) as [e|median]; [reflexivity|].
  destruct (np_quantile l' (Q2Qc (95 # 100))) as [e|upper5]; [reflexivity|].
  destruct (np_quantile l' (Q2Qc (99 # 100))) as [e|upper1]; reflexivity.
Qed.

(** A full sample visits every sector once. *)
Lemma drawn_full g : drawn g 3195 ≡ₚ seq 0 3195.
Proof.
  unfold drawn. rewrite take_ge; [apply permutation_Permutation|].
  rewrite (Permutation_length (permutation_Permutation g 3195)), length_seq. lia.
Qed.

Lemma effects_of_Permutation md ty size s s' :
  s ≡ₚ s' → effects_of md ty size s ≡ₚ effects_of md ty size s'.
Proof. intros Hp. unfold effects_of. case_decide; by apply fmap_Permutation. Qed.

(** X10.  With the sample size 3195 every sector is visited exactly once:
    the effects are those of the sectors 0 to 3194 in the order drawn, and
    the median and the two upper percentiles are those of that list, the
    same whatever the state of the random generator.  The mean and the
    standard deviation are left out: they are sums taken in the order
    drawn. *)
Theorem full_sample_percentiles w self md shock_type shock_size :
  holds w self md → prepared md →
  shock_type = "Demand" ∨ shock_type = "Supply" →
  let census := effects_of md shock_type shock_size (seq 0 3195) in
  ∃ r w', shock self shock_type shock_size 3195 w = (Return r, w') ∧
    Shock_effect_data r ≡ₚ census ∧
    Median r = quantile_linear census (Q2Qc (5 # 10)) ∧
    Upper_5_quantile r = quantile_linear census (Q2Qc (95 # 100)) ∧
    Upper_1_quantile r = quantile_linear census (Q2Qc (99 # 100)).
Proof.
  intros Hh Hp Hty census.
  assert (Hshock : shock self shock_type shock_size 3195 w
    = (statistics (effects_of md shock_type shock_size (drawn (rng w) 3195)),
       after_shock w (if decide (shock_type = "Demand") then md_demand md
                      else md_output md) shock_size 3195)).
  { destruct Hty as [-> | ->].
    - by apply shock_demand_spec.
    - by apply shock_supply_spec. }
  pose proof (effects_of_Permutation md shock_type shock_size _ _
                (drawn_full (rng w))) as Hperm.
  rewrite Hshock,
    (statistics_nonempty _ (effects_of_nonempty _ _ _ _ 3195 ltac:(lia))).
  eexists _, _. split; [reflexivity|].
  cbn [Shock_effect_data Median Upper_5_quantile Upper_1_quantile].
  split; [exact Hperm|].
  repeat split; by apply quantile_linear_Permutation.
Qed.

(** ** The three percentiles *)

(** X11.  For a non-empty sequence of effects that are finite and of
    magnitude at most [2^1022], so that the difference the interpolation
    takes does not overflow, the three percentiles of the result are
    ordered, the median at most the 95th percentile and the 95th at most
    the 99th, and all of them lie between the least and the greatest
    effect. *)
Theorem percentiles_chain l :
  l ≠ [] → Forall moderate l →
  ∃ r, statistics l = Return r ∧
    F.leb (Median r) (Upper_5_quantile r) = true ∧
    F.leb (Upper_5_quantile r) (Upper_1_quantile r) = true ∧
    ∀ lo hi, is_minimum lo l → is_maximum hi l →
      F.leb lo (Median r) = true ∧ F.leb (Upper_1_quantile r) hi = true.
Proof.
  intros Hl Hmod. pose proof (moderate_finite l Hmod) as Hfin.
  rewrite statistics_nonempty by done.
  eexists. split; [reflexivity|].
  cbn [Median Upper_5_quantile Upper_1_quantile].
  split; [by apply quantile_mono|]. split; [by apply quantile_mono|].
  intros lo hi Hlo Hhi.
  split; by eapply quantile_between.
Qed.

(** X12.  One effect that is NaN spoils the result: the mean, the median
    and the two upper percentiles are all NaN. *)
Theorem nan_effect_spoils_statistics l :
  NaN ∈ l →
  ∃ r, statistics l = Return r ∧
    Average r = NaN ∧ Median r = NaN ∧
    Upper_5_quantile r = NaN ∧ Upper_1_quantile r = NaN.
Proof.
  intros Hin.
  rewrite statistics_nonempty by (intros ->; by apply not_elem_of_nil in Hin).
  eexists. split; [reflexivity|].
  cbn [Average Median Upper_5_quantile Upper_1_quantile].
  split; [unfold np_mean; by rewrite np_sum_NaN|].
  repeat split; by apply quantile_linear_NaN.
Qed.

(** ** [run] at its edges *)

Lemma for_each_skip {X} (xs : list X) w :
  for_each xs () (λ _ _, mret ()) w = (Return (), w).
Proof.
  induction xs as [|x xs IH]; [done|]. cbn [for_each].
  by step ltac:(reflexivity).
Qed.

(** X13.  With a number of replications of 0 or less [run] does nothing:
    it returns the dictionary as it is, whatever the shock sizes are; no
    file is read, nothing is drawn and the world is unchanged. *)
Theorem run_without_replications self w :
  (number_of_replications self ≤ 0)%Z →
  run self w = (Return (return_result self), w).
Proof.
  intros Hr. unfold run, range.
  replace (Z.to_nat (number_of_replications self)) with 0 by lia.
  cbn [seq for_each]. by rewrite (bind_Return _ _ _ _ _ (for_each_skip _ w)).
Qed.

(** X14.  [run] does not catch what the constructor raises: with at least
    one shock size and one replication, an error raised by the constructor
    in the world [run] starts in ends [run] in the first replication with
    that error and in the world the constructor left. *)
Theorem run_stops_at_first_failure self w e w1 :
  shock_sizes self ≠ [] → (1 ≤ number_of_replications self)%Z →
  Leontief_Model___init__ w = (Raise e, w1) →
  run self w = (Raise e, w1).
Proof.
  intros Hsizes Hr Hinit. unfold run, range.
  destruct (shock_sizes self) as [|size sizes]; [done|].
  destruct (Z.to_nat (number_of_replications self)) as [|n] eqn:Hn; [lia|].
  cbn [seq for_each]. do 3 apply bind_Raise.
  unfold run_replication. by apply bind_Raise.
Qed.

(** ** What [run] writes to *)

Lemma appends_to_refl l w : appends_to l w w.
Proof.
  split; [done|]. split; [done|]. split; [done|].
  intros d Hd. exists d. split; [done|]. intros key.
  destruct (d !! key) as [xs|]; [|done]. exists []. by rewrite app_nil_r.
Qed.

Lemma appends_to_trans l w1 w2 w3 :
  appends_to l w1 w2 → appends_to l w2 w3 → appends_to l w1 w3.
Proof.
  intros (Hf1 & Hl1 & Ho1 & Hd1) (Hf2 & Hl2 & Ho2 & Hd2).
  split; [congruence|]. split; [lia|]. split.
  - intros l' Hl' Hne. rewrite Ho2 by (done || lia). by apply Ho1.
  - intros d Hd. destruct (Hd1 d Hd) as (d' & Hd' & Hkeys1).
    destruct (Hd2 d' Hd') as (d'' & Hd'' & Hkeys2).
    exists d''. split; [done|]. intros key.
    specialize (Hkeys1 key). specialize (Hkeys2 key).
    destruct (d !! key) as [xs|].
    + destruct Hkeys1 as [ys Hys]. rewrite Hys in Hkeys2.
      destruct Hkeys2 as [zs Hzs]. exists (ys ++ zs). by rewrite app_assoc.
    + by rewrite Hkeys1 in Hkeys2.
Qed.

Lemma grown_appends_to l w w' : grown w w' → appends_to l w w'.
Proof.
  intros [[ext Hext] Hfiles]. split; [done|]. rewrite Hext.
  split; [rewrite length_app; lia|]. split.
  - intros l' Hl' _. by apply lookup_app_l.
  - intros d Hd. exists d. split; [by apply lookup_old|]. intros key.
    destruct (d !! key) as [xs|]; [|done]. exists []. by rewrite app_nil_r.
Qed.

Lemma dict_append_appends_to l key x w o w' :
  dict_append l key x w = (o, w') → appends_to l w w'.
Proof.
  unfold dict_append.
  destruct (heap w !! l) as [[v|m|d]|] eqn:Hl;
    try (intros [= <- <-]; apply appends_to_refl).
  destruct (d !! key) as [xs|] eqn:Hkey;
    [|intros [= <- <-]; apply appends_to_refl].
  intros [= <- <-]. split; [done|]. cbn [heap set_heap].
  split; [by rewrite length_insert|]. split.
  - intros l' _ Hne. by apply list_lookup_insert_ne.
  - intros d0 Hd0. assert (d0 = d) as -> by congruence.
    eexists. split; [apply list_lookup_insert_eq; by eapply lookup_lt_Some|].
    intros key'. destruct (decide (key' = key)) as [->|Hne].
    + rewrite Hkey, lookup_insert_eq. by eexists.
    + rewrite lookup_insert_ne by done.
      destruct (d !! key') as [ys|]; [|done]. exists []. by rewrite app_nil_r.
Qed.

Lemma bind_appends_to {X Y} l (m : M X) (f : X → M Y) w o w' :
  (∀ o1 w1, m w = (o1, w1) → appends_to l w w1) →
  (∀ a w1 o2 w2, f a w1 = (o2, w2) → appends_to l w1 w2) →
  (m ≫= f) w = (o, w') → appends_to l w w'.
Proof.
  intros Hm Hf. unfold mbind, M_bind.
  destruct (m w) as [[e|a] w1] eqn:Hmw.
  - intros [= <- <-]. by eapply Hm.
  - intros Hfa. eapply appends_to_trans; [by eapply Hm|by eapply Hf].
Qed.

Lemma for_each_appends_to {X Y} l (body : Y → X → M Y) xs :
  (∀ acc x w o w', body acc x w = (o, w') → appends_to l w w') →
  ∀ acc w o w', for_each xs acc body w = (o, w') → appends_to l w w'.
Proof.
  intros Hbody. induction xs as [|x xs IH]; intros acc w o w'; simpl.
  - intros [= <- <-]. apply appends_to_refl.
  - apply bind_appends_to; [apply Hbody|apply IH].
Qed.

Lemma list_getitem_appends_to {X} l (xs : list X) i w o w' :
  list_getitem xs i w = (o, w') → appends_to l w w'.
Proof.
  unfold list_getitem.
  destruct (xs !! i); intros [= <- <-]; apply appends_to_refl.
Qed.

Lemma run_replication_appends_to self size w o w' :
  run_replication self size w = (o, w') → appends_to (return_result self) w w'.
Proof.
  unfold run_replication. apply bind_appends_to.
  { intros o1 w1 Hinit. by eapply grown_appends_to, init_grown. }
  intros L w1 o2 w2. apply bind_appends_to.
  { intros o1 w3 Hshock. by eapply grown_appends_to, shock_grown. }
  intros r w3 o3 w4. apply bind_appends_to; [apply list_getitem_appends_to|].
  intros s0 w5 o5 w6. case_match; [apply dict_append_appends_to|].
  apply bind_appends_to; [apply list_getitem_appends_to|].
  intros s1 w7 o7 w8. case_match; apply dict_append_appends_to.
Qed.

Lemma run_appends_to self w o w' :
  run self w = (o, w') → appends_to (return_result self) w w'.
Proof.
  unfold run. apply bind_appends_to.
  - apply for_each_appends_to. intros [] size w1 o1 w2.
    apply for_each_appends_to. intros [] replication w3 o3 w4.
    apply run_replication_appends_to.
  - intros [] w1 o1 w2 [= <- <-]. apply appends_to_refl.
Qed.

(** X15.  However [run] ends, whatever the aggregator's shock sizes and
    number of replications, it writes to its own dictionary only and only
    by appending: the files and every other object that existed before are
    unchanged, the dictionary has the keys it had, and under every key the
    list it held before is a prefix of the list it holds after. *)
Theorem run_only_appends self w o w' :
  run self w = (o, w') →
  files w' = files w ∧
  (∀ l, l < length (heap w) → l ≠ return_result self →
        heap w' !! l = heap w !! l) ∧
  ∀ d, heap w !! return_result self = Some (Dict d) →
    ∃ d', heap w' !! return_result self = Some (Dict d') ∧
      dom d' = dom d ∧
      ∀ key xs, d !! key = Some xs → ∃ xs', d' !! key = Some xs' ∧ xs `prefix_of` xs'.
Proof.
  intros Hrun. destruct (run_appends_to _ _ _ _ Hrun) as (Hf & _ & Ho & Hd).
  split; [done|]. split; [done|]. intros d Hl.
  destruct (Hd d Hl) as (d' & Hl' & Hkeys). exists d'. split; [done|]. split.
  - apply set_eq. intros key. rewrite !elem_of_dom. specialize (Hkeys key).
    destruct (d !! key) as [xs|].
    + destruct Hkeys as [ys ->]. split; by eexists.
    + rewrite Hkeys. done.
  - intros key xs Hkey. specialize (Hkeys key). rewrite Hkey in Hkeys.
    destruct Hkeys as [ys Hys]. exists (xs ++ ys). split; [done|]. by exists ys.
Qed.

(** X16.  Aggregators do not share their dictionaries: each constructor
    call creates a dictionary of its own, and whatever [run] on one
    aggregator does, the dictionary of an aggregator created after it still
    holds its three empty lists. *)
Theorem aggregators_do_not_share (r1 r2 : Z) w :
  ∃ self1 w1 self2 w2,
    ReproducibleResult___init__ r1 w = (Return self1, w1) ∧
    ReproducibleResult___init__ r2 w1 = (Return self2, w2) ∧
    return_result self1 ≠ return_result self2 ∧
    ∀ o w3, run self1 w2 = (o, w3) →
      heap w3 !! return_result self2 = Some (Dict (results [] [] [])).
Proof.
  eexists _, _, _, _. split; [apply ReproducibleResult___init___spec|].
  split; [apply ReproducibleResult___init___spec|].
  cbn [return_result heap set_heap].
  split; [rewrite length_app; cbn [length]; lia|]. intros o w3 Hrun.
  destruct (run_appends_to _ _ _ _ Hrun) as (_ & _ & Hother & _).
  cbn [return_result heap set_heap] in Hother.
  rewrite Hother; [apply lookup_fresh| |].
  - rewrite !length_app. cbn [length]. lia.
  - rewrite length_app. cbn [length]. lia.
Qed.

(** ** The report *)

Context `{PyPlot}.

Lemma dict_getitem_results w l a b c :
  heap w !! l = Some (Dict (results a b c)) →
  dict_getitem w l "for_30%_shock_size" = Return a ∧
  dict_getitem w l "for_70%_shock_size" = Return b ∧
  dict_getitem w l "for_100%_shock_size" = Return c.
Proof. intros Hl. unfold dict_getitem. rewrite Hl. done. Qed.

(** [analyze_result] on an aggregator whose dictionary holds the lists [a],
    [b] and [c]: the three lines, then the figure as far as matplotlib
    draws it. *)
Lemma analyze_result_results self show_plot w a b c :
  heap w !! return_result self = Some (Dict (results a b c)) →
  analyze_result self show_plot w
  = if show_plot then
      match hist_error a, hist_error b, hist_error c with
      | None, None, None => (report a b c ++ figure a b c, Return ())
      | None, None, Some e => (report a b c ++ take 3 (figure a b c), Raise e)
      | None, Some e, _ => (report a b c ++ take 2 (figure a b c), Raise e)
      | Some e, _, _ => (report a b c ++ take 1 (figure a b c), Raise e)
      end
    else (report a b c, Return ()).
Proof.
  intros Hl. destruct (dict_getitem_results _ _ _ _ _ Hl) as (Ha & Hb & Hc).
  unfold analyze_result, print_effect, ax_hist. rewrite Ha, Hb, Hc.
  destruct show_plot; [|done].
  unfold mbind, IO_bind, io_lift, emit. cbn beta iota.
  by destruct (hist_error a), (hist_error b), (hist_error c).
Qed.

(** X17.  [analyze_result] on an aggregator that has not run prints its
    three lines and reports NaN as the effect in each of them, the mean of
    an empty list; what stands after "+/-" is the square root numpy takes
    of NaN. *)
Theorem analyze_before_run (r : Z) w :
  ∃ self w0,
    ReproducibleResult___init__ r w = (Return self, w0) ∧
    analyze_result self false w0
    = ([Printed [Text "Effect of demand shocks by 30%  for the upper 1% quantile = ";
                 Number NaN; Text "+/-"; Number (np_sqrt NaN)];
        Printed [Text (newline +:+ "Effect of demand shocks by 70%  for the upper 1% quantile = ");
                 Number NaN; Text "+/-"; Number (np_sqrt NaN)];
        Printed [Text (newline +:+ "Effect of demand shocks by 100%  for the upper 1% quantile = ");
                 Number NaN; Text "+/-"; Number (np_sqrt NaN)]],
       Return ()).
Proof.
  eexists _, _. split; [apply ReproducibleResult___init___spec|].
  by rewrite (analyze_result_results _ false _ [] [] []) by apply lookup_fresh.
Qed.

(** X18.  [analyze_result] prints before it plots and plots only when
    asked to: what a call with [show_plot] prints is exactly what the call
    without it emits, all of it before the first call to matplotlib; and
    when the report fails, on a dictionary without one of the keys, nothing
    is plotted. *)
Theorem report_precedes_figure self w :
  (analyze_result self false w).1 `prefix_of` (analyze_result self true w).1 ∧
  filter printed (analyze_result self true w).1 = (analyze_result self false w).1 ∧
  ((analyze_result self false w).2 ≠ Return () →
   analyze_result self true w = analyze_result self false w).
Proof.
  unfold analyze_result, print_effect, ax_hist.
  unfold mbind, IO_bind, io_lift, emit, mret, IO_ret.
  destruct (dict_getitem w (return_result self) "for_30%_shock_size") as [e1|a];
    [by split; [|split]|].
  destruct (dict_getitem w (return_result self) "for_70%_shock_size") as [e2|b];
    [by split; [|split]|].
  destruct (dict_getitem w (return_result self) "for_100%_shock_size") as [e3|c];
    [by split; [|split]|].
  cbn beta iota.
  destruct (hist_error a), (hist_error b), (hist_error c);
    (split; [by eexists|by split]).
Qed.

(** X19.  The script, run where the working directory holds an accepted
    table: it creates an aggregator with 20 replications, runs it and
    reports; the three printed lines give the mean and the standard
    deviation of the 20 percentiles collected for the shock sizes 0.3, 0.7
    and 1.0, and when matplotlib can draw the three histograms the figure
    follows and the script ends without an error. *)
Theorem main_reports_replications w d md :
  files w !! "ICIO2021_2018.csv" = Some d →
  model_of_table d = Return md →
  let g1 := Nat.iter 20 after_draw (rng w) in
  let g2 := Nat.iter 20 after_draw g1 in
  let a := replications md (F.of_Q (3 # 10)) (rng w) 20 in
  let b := replications md (F.of_Q (7 # 10)) g1 20 in
  let c := replications md (F.of_Q 1) g2 20 in
  ∃ rest o w',
    main w = ((report a b c ++ rest, o), w') ∧
    (hist_error a = None → hist_error b = None → hist_error c = None →
     rest = figure a b c ∧ o = Return ()).
Proof.
  intros Hfile Hmd g1 g2 a b c.
  set (self := mkReproducibleResult default_number_of_replications
                 configured_sizes (length (heap w))).
  set (w0 := set_heap (heap w ++ [Dict (results [] [] [])]) w).
  destruct (run_spec w0 self d md [] [] [] Hfile Hmd eq_refl (lookup_fresh _ _))
    as (w' & Hrun & _ & _ & Hres).
  cbn [app number_of_replications self rng w0 set_rng set_heap] in Hres.
  change (Z.to_nat default_number_of_replications) with 20 in Hres.
  fold g1 g2 a b c in Hres.
  assert (Hmain : main w = (analyze_result self true w', w')).
  { unfold main.
    rewrite (bind_Return _ _ _ _ _ (ReproducibleResult___init___spec _ w)).
    fold self w0. by rewrite (bind_Return _ _ _ _ _ Hrun). }
  rewrite Hmain, (analyze_result_results self true w' a b c Hres).
  destruct (hist_error a) as [e1|]; [by eexists _, _, _|].
  destruct (hist_error b) as [e2|]; [by eexists _, _, _|].
  destruct (hist_error c) as [e3|]; [by eexists _, _, _|].
  by eexists _, _, _.
Qed.

End Properties.

(** * Sample runs

    The model on uniform tables, with the stand-in for numpy. *)

Section Samples.

(** ** The model on small inputs *)

Example division_by_zero :
  ((F.of_Q 5 / F.zero)%F, (F.of_Q (-5) / F.zero)%F, (F.zero / F.zero)%F,
   F.isnan (F.of_Q 5 / F.zero)%F)
  = (PInf, NInf, NaN, false).
Proof. reflexivity. Qed.

Example coefficient_matrix_two_by_two :
  fmap (M := outcome) (fmap (M := list) (fmap (M := list) F.to_Q))
    (coefficient_matrix [[F.of_Q 1; F.of_Q 5]; [F.zero; F.zero]]
       [F.of_Q 2; F.zero])
  = Return [[Some (1 # 2); None]; [Some 0; Some 0]]%Q.
Proof. by vm_compute. Qed.

Example quantile_of_four :
  F.to_Q <$> [quantile_linear [F.of_Q 4; F.of_Q 1; F.of_Q 3; F.of_Q 2] (Q2Qc (5 # 10));
              quantile_linear [F.of_Q 4; F.of_Q 1; F.of_Q 3; F.of_Q 2] (Q2Qc (99 # 100))]
  = [Some (5 # 2); Some (397 # 100)]%Q.
Proof. by vm_compute. Qed.

Example quantile_with_nan :
  quantile_linear [F.of_Q 1; NaN; F.of_Q 3] (Q2Qc (5 # 10)) = NaN.
Proof. reflexivity. Qed.

(** Demand: halving the demand of sector 0 gives [L . (1/2, 2) = (3/2, 2)],
    effect [1 - (7/2) / 4 = 1/8]; for sector 1, [L . (1, 1) = (3/2, 1)],
    effect [1 - (5/2) / 4 = 3/8]. *)
Example two_sector_demand_shock :
  summary (shock two_sector_model "Demand" (F.of_Q (1 # 2)) 2 two_sector_world).1
  = Some ([Some (1 # 8); Some (3 # 8)], Some (1 # 4), Some (1 # 4),
          Some (149 # 400))%Q.
Proof. by vm_compute. Qed.

(** Supply: [(I - A) . (1, 2) = (0, 2)] and [(I - A) . (2, 1) = (3/2, 1)],
    against a total final demand of 3. *)
Example two_sector_supply_shock :
  summary (shock two_sector_model "Supply" (F.of_Q (1 # 2)) 2 two_sector_world).1
  = Some ([Some (1 # 3); Some (1 # 6)], Some (1 # 4), Some (1 # 4),
          Some (199 # 600))%Q.
Proof. by vm_compute. Qed.

(** The two copies are the only new objects and the model's own vectors are
    as before. *)
Example two_sector_heap_after :
  let w' := (shock two_sector_model "Demand" (F.of_Q (1 # 2)) 2 two_sector_world).2 in
  (length (heap w'), rng w',
   bool_decide (take 6 (heap w') = heap two_sector_world))
  = (8, 1, true).
Proof. by vm_compute. Qed.

Example two_sector_unknown_type :
  (shock two_sector_model "Price" (F.of_Q (1 # 2)) 2 two_sector_world).1
  = Raise (AssertionError "Unknown shock type Price").
Proof. reflexivity. Qed.

(** ** The model on uniform tables *)

Lemma sector_names_length : length sector_names = 3195.
Proof. unfold sector_names. by rewrite length_fmap, length_seq. Qed.

Lemma uniform_rows_take flow fd out :
  take 3195 (rows (uniform_table flow fd out)) = rows (uniform_table flow fd out).
Proof.
  apply take_ge. cbn [rows uniform_table].
  rewrite length_fmap, sector_names_length. lia.
Qed.

Lemma uniform_labels flow fd out :
  labels_all_equal (row_labels (uniform_table flow fd out))
                   (column_labels (uniform_table flow fd out)) = Return true.
Proof.
  assert (Hrow : row_labels (uniform_table flow fd out) = sector_names).
  { unfold row_labels. rewrite uniform_rows_take. cbn [rows uniform_table].
    rewrite <-list_fmap_compose. apply list_fmap_id. }
  assert (Hcol : column_labels (uniform_table flow fd out) = sector_names).
  { unfold column_labels. cbn [columns uniform_table skipn].
    apply take_app_length'. by rewrite sector_names_length. }
  rewrite Hrow, Hcol. unfold labels_all_equal.
  rewrite decide_True by done. by rewrite bool_decide_eq_true_2.
Qed.

Lemma uniform_io_matrix flow fd out :
  extract_io_matrix (uniform_table flow fd out)
  = replicate 3195 (replicate 3195 flow).
Proof.
  unfold extract_io_matrix. rewrite uniform_rows_take. cbn [rows uniform_table].
  rewrite <-list_fmap_compose, <-sector_names_length. apply const_fmap.
  intros i name _. cbn [compose cells].
  apply take_app_length'. by rewrite length_replicate, sector_names_length.
Qed.

Lemma uniform_demand flow fd out :
  extract_demand (uniform_table flow fd out)
  = replicate 3195 (pd_sum (replicate 402 fd)).
Proof.
  unfold extract_demand. rewrite uniform_rows_take. cbn [rows uniform_table].
  rewrite <-list_fmap_compose, <-sector_names_length. apply const_fmap.
  intros i name _. cbn [compose cells].
  rewrite drop_app_length' by (by rewrite length_replicate, sector_names_length).
  by rewrite take_app_length' by (by rewrite length_replicate).
Qed.

Lemma mapM_const {X Y Z} (f : Y → option Z) (g : X → Y) (z : Z) (l : list X) :
  (∀ x, f (g x) = Some z) → mapM f (g <$> l) = Some (replicate (length l) z).
Proof.
  intros Hf. induction l as [|x l IH]; [done|].
  cbn [fmap list_fmap mapM length replicate]. rewrite Hf.
  cbn [fmap list_fmap] in IH. rewrite IH. done.
Qed.

Lemma uniform_output flow fd out :
  extract_output (uniform_table flow fd out) = Return (replicate 3195 out).
Proof.
  unfold extract_output. rewrite decide_True.
  2:{ cbn [columns uniform_table length].
      rewrite !length_app, sector_names_length, length_replicate.
      cbn [length]. lia. }
  rewrite uniform_rows_take. cbn [rows uniform_table].
  rewrite (mapM_const _ _ out).
  - by rewrite sector_names_length.
  - intros name. cbn [cells].
    rewrite lookup_app_r by (rewrite length_replicate; lia).
    rewrite lookup_app_r by (rewrite !length_replicate; lia).
    rewrite !length_replicate. done.
Qed.

Lemma uniform_divide (x o : float64) :
  np_divide (replicate 3195 (replicate 3195 x)) (replicate 3195 o)
  = Return (replicate 3195 (replicate 3195 (x / o)%F)).
Proof.
  unfold np_divide. rewrite decide_True.
  - by rewrite fmap_replicate, zip_with_replicate.
  - apply Forall_replicate. by rewrite !length_replicate.
Qed.

Lemma nan_to_zero_replicate n (x : float64) :
  nan_to_zero (replicate n (replicate n x))
  = replicate n (replicate n (if F.isnan x then F.zero else x)).
Proof. unfold nan_to_zero. by rewrite !fmap_replicate. Qed.

Lemma zero_matrix_square : square 3195 zero_matrix.
Proof.
  unfold zero_matrix. split; [apply length_replicate|].
  apply Forall_replicate, length_replicate.
Qed.

Lemma identity_minus_zero :
  identity_minus zero_matrix = Return (identity 3195).
Proof.
  unfold identity_minus. rewrite decide_True by apply zero_matrix_square.
  apply (f_equal Return). unfold zero_matrix.
  rewrite zip_with_replicate_r_eq by apply identity_length.
  rewrite <-(list_fmap_id (identity 3195)) at 2.
  apply Forall_fmap_ext. destruct (identity_square 3195) as [_ Hrows].
  eapply Forall_impl; [exact Hrows|]. intros row Hrow. cbn [flip id].
  rewrite zip_with_replicate_r_eq by done.
  rewrite <-(list_fmap_id row) at 2. apply list_fmap_ext.
  intros i x _. cbn [flip id]. apply sub_zero_r.
Qed.

Lemma inv_identity : np_linalg_inv (identity 3195) = Return (identity 3195).
Proof.
  unfold np_linalg_inv. change (linalg_inv (identity 3195))
    with (inv_of_identity (identity 3195)).
  unfold inv_of_identity. rewrite identity_length. by rewrite decide_True.
Qed.

(** The constructor on a uniform table without intermediate flows. *)
Lemma model_of_uniform_table fd (o : Qc) :
  model_of_table (uniform_table F.zero fd (Fin o))
  = Return (uniform_model fd (Fin o)).
Proof.
  rewrite (model_of_table_intro _ (replicate 3195 (Fin o))
             (replicate 3195 (replicate 3195 (F.zero / Fin o)%F))
             (identity 3195) (identity 3195)).
  - unfold uniform_model. rewrite uniform_io_matrix, uniform_demand.
    by rewrite nan_to_zero_replicate, zero_div_finite.
  - apply uniform_labels.
  - apply uniform_output.
  - rewrite uniform_io_matrix. apply uniform_divide.
  - rewrite nan_to_zero_replicate, zero_div_finite. apply identity_minus_zero.
  - apply inv_identity.
Qed.

Lemma uniform_constructed fd (o : Qc) :
  Leontief_Model___init__ (world_with (uniform_table F.zero fd (Fin o)))
  = (Return (model_at 0 (uniform_table F.zero fd (Fin o)) (uniform_model fd (Fin o))),
     mkWorld (objects_of (uniform_model fd (Fin o))) 0
       {[ "ICIO2021_2018.csv" := uniform_table F.zero fd (Fin o) ]}).
Proof.
  rewrite (init_spec _ (uniform_table F.zero fd (Fin o)) (uniform_model fd (Fin o)));
    [done|apply lookup_singleton_eq|apply model_of_uniform_table].
Qed.

Lemma uniform_holds fd out d fs :
  holds (mkWorld (objects_of (uniform_model fd out)) 0 fs)
    (model_at 0 d (uniform_model fd out)) (uniform_model fd out).
Proof. apply (model_at_holds (H := stand_in) [] 0). Qed.

Lemma uniform_prepared fd (o : Qc) : prepared (uniform_model fd (Fin o)).
Proof. eapply model_of_table_prepared, model_of_uniform_table. Qed.

Lemma sample_model_of_table : model_of_table sample_table = Return sample_content.
Proof. apply model_of_uniform_table. Qed.

Lemma sample_constructed :
  Leontief_Model___init__ (world_with sample_table)
  = (Return sample_model, sample_world).
Proof. apply uniform_constructed. Qed.

Lemma sample_holds : holds sample_world sample_model sample_content.
Proof. apply uniform_holds. Qed.

Lemma sample_prepared : prepared sample_content.
Proof. apply uniform_prepared. Qed.

Lemma idle_constructed :
  Leontief_Model___init__ (world_with idle_table) = (Return idle_model, idle_world).
Proof. apply (uniform_constructed F.zero (Q2Qc 0)). Qed.

Lemma idle_holds : holds idle_world idle_model idle_content.
Proof. apply uniform_holds. Qed.

Lemma idle_prepared : prepared idle_content.
Proof. apply (uniform_prepared F.zero (Q2Qc 0)). Qed.

(** In the idle economy the benchmark is 0 and so is the sum: the baseline
    effect is [1 - 0 / 0], which is NaN. *)
Lemma idle_baseline :
  baseline (md_leontief_inverse idle_content) (md_demand idle_content)
    (pd_sum (md_output idle_content))
  = NaN.
Proof.
  unfold baseline, idle_content, uniform_model.
  cbn [md_leontief_inverse md_demand md_output].
  change F.zero with (Fin (Q2Qc 0)).
  rewrite !pd_sum_replicate, <-fmap_replicate.
  rewrite mat_vec_identity by apply length_replicate.
  rewrite fmap_replicate, np_sum_replicate.
  unfold F.div. rewrite decide_True; [by vm_compute|].
  apply Qc_is_canon. by vm_compute.
Qed.

(** In the sample economy the model reproduces a total output of
    3195 * 402 from the final demand while the table records 3195 * 804:
    the baseline effect of a demand experiment is one half. *)
Lemma sample_baseline :
  baseline (md_leontief_inverse sample_content) (md_demand sample_content)
    (pd_sum (md_output sample_content))
  = Fin (Q2Qc (1 # 2)).
Proof.
  unfold baseline, sample_content, uniform_model.
  cbn [md_leontief_inverse md_demand md_output].
  change F.one with (Fin (Q2Qc 1)).
  rewrite !pd_sum_replicate, <-fmap_replicate.
  rewrite mat_vec_identity by apply length_replicate.
  rewrite fmap_replicate, np_sum_replicate.
  unfold F.div. rewrite decide_False.
  - unfold F.sub, F.opp, F.add. apply (f_equal Fin), Qc_is_canon. by vm_compute.
  - intros Hz. apply (f_equal this) in Hz. by vm_compute in Hz.
Qed.

(** ** The balanced economy *)








(** A frame with the label column only and no data rows passes the check of
    the labels and is refused for want of column 3598. *)
Example empty_table_refused :
  (Leontief_Model___init__ (world_with (mkDataFrame [""] []))).1
  = Raise (IndexError "single positional indexer is out-of-bounds").
Proof. reflexivity. Qed.

(** The effects 3, 1 and 2 are well within the range of binary64. *)
Lemma three_effects_moderate :
  Forall moderate [F.of_Q 3; F.of_Q 1; F.of_Q 2].
Proof.
  repeat (apply Forall_cons; split; [split; by vm_compute|]). by apply Forall_nil.
Qed.

(** [run] with five replications on the sample table, from a world that
    holds the dictionary of the aggregator. *)
Lemma sample_run :
  ∃ w', run (aggregator 5) sample_aggregator_world
        = (Return (return_result (aggregator 5)), w') ∧
    heap w' !! return_result (aggregator 5)
    = Some (Dict (results
        (replications sample_content (F.of_Q (3 # 10)) 0 5)
        (replications sample_content (F.of_Q (7 # 10)) 5 5)
        (replications sample_content (F.of_Q 1) 10 5))).
Proof.
  destruct (run_spec sample_aggregator_world (aggregator 5) sample_table
              sample_content [] [] [] (lookup_singleton_eq _ _) sample_model_of_table
              eq_refl eq_refl) as (w' & Hrun & _ & _ & Hres).
  exists w'. split; [exact Hrun|]. exact Hres.
Qed.

(** In a world without the file the constructor fails at once. *)
Lemma aggregator_world_no_file :
  Leontief_Model___init__ aggregator_world
  = (Raise (FileNotFoundError "ICIO2021_2018.csv"), aggregator_world).
Proof. reflexivity. Qed.

End Samples.

(** C2 (as stated) fails: in a table where every flow is 5 and every total
    output is 0 the coefficient in row 0, column 0 is plus infinity. *)
Lemma coefficients_always_finite_fails : ¬ coefficients_always_finite.
Proof.
  intros Hclaim.
  pose proof (uniform_io_matrix (Fin (Q2Qc 5)) F.zero F.zero) as Hio.
  assert (Ha : coefficient_matrix
                 (extract_io_matrix (uniform_table (Fin (Q2Qc 5)) F.zero F.zero))
                 (replicate 3195 F.zero)
               = Return (replicate 3195 (replicate 3195 PInf))).
  { unfold coefficient_matrix. rewrite Hio, uniform_divide.
    cbn [fmap outcome_fmap]. by rewrite nan_to_zero_replicate. }
  assert (Hfin : Forall (Forall finite)
                   (extract_io_matrix (uniform_table (Fin (Q2Qc 5)) F.zero F.zero))).
  { rewrite Hio. by apply Forall_replicate, Forall_replicate. }
  assert (Hrow : extract_io_matrix (uniform_table (Fin (Q2Qc 5)) F.zero F.zero) !! 0
                 = Some (replicate 3195 (Fin (Q2Qc 5)))).
  { rewrite Hio. apply lookup_replicate_2. lia. }
  destruct (Hclaim _ _ _ (uniform_labels _ _ _) (uniform_output _ _ _) Hfin
              (Forall_replicate _ 3195 F.zero eq_refl) Ha
              0 0 _ (replicate 3195 PInf) (Fin (Q2Qc 5)) F.zero PInf Hrow)
    as (_ & Hzero & _).
  - apply lookup_replicate_2. lia.
  - apply lookup_replicate_2. lia.
  - apply lookup_replicate_2. lia.
  - apply lookup_replicate_2. lia.
  - by specialize (Hzero eq_refl).
Qed.

(** C3 (as stated) fails: in the sample economy a demand experiment with
    shock size 0 on one sector records the effect one half. *)
Lemma no_shock_no_effect_fails : ¬ no_shock_no_effect.
Proof.
  intros Hclaim.
  destruct (zero_shock_one_sector sample_world sample_model sample_content
              (Fin (Q2Qc (1 # 2))) sample_holds sample_prepared sample_baseline)
    as (w' & Hshock).
  pose proof (Hclaim stand_in _ _ _ _ "Demand" 1%Z _ sample_constructed
                (or_introl eq_refl) ltac:(lia) Hshock) as Hzero.
  cbn [Shock_effect_data] in Hzero. apply Forall_cons in Hzero as [Hzero _].
  apply (f_equal (λ x, match x with Fin q => this q | _ => 0%Q end)) in Hzero.
  by vm_compute in Hzero.
Qed.

(** C6 (as stated) fails: in the idle economy the one effect of a demand
    experiment is NaN, so are the median and the 99th percentile, and NaN is
    not below or equal to NaN. *)
Lemma percentiles_ordered_fails : ¬ percentiles_ordered.
Proof.
  intros Hclaim.
  destruct (zero_shock_one_sector idle_world idle_model idle_content NaN
              idle_holds idle_prepared idle_baseline) as (w' & Hshock).
  destruct (Hclaim stand_in _ _ _ _ "Demand" F.zero 1%Z _ idle_constructed
              (or_introl eq_refl) ltac:(lia) Hshock) as [Hle _].
  discriminate Hle.
Qed.

(** C8 (as stated) fails: on the sample model a call with sample size 0 is
    not stopped before the sampling, the generator has moved when the call
    ends. *)
Lemma sample_size_validated_fails : ¬ sample_size_validated.
Proof.
  intros Hclaim.
  destruct (Hclaim stand_in _ _ sample_model "Demand" default_shock_size 0%Z
              sample_constructed (or_introl eq_refl) ltac:(lia)) as [e Hraise].
  destruct (zero_sample_draws sample_world sample_model sample_content "Demand"
              default_shock_size sample_holds sample_prepared (or_introl eq_refl))
    as (w' & Hdraw & Hrng & _).
  assert (w' = sample_world) as ->.
  { revert Hraise Hdraw.
    generalize (shock sample_model "Demand" default_shock_size 0 sample_world).
    intros p -> Hp. exact (f_equal snd (eq_sym Hp)). }
  discriminate Hrng.
Qed.

(** * Instances of the theorems on the sample model *)

(** C3 (amended) on the sample model, one sector. *)
Lemma zero_shock_gives_baseline_witness :
  (∃ r w', shock sample_model "Demand" F.zero 1 sample_world = (Return r, w') ∧
     Shock_effect_data r
     = replicate (Z.to_nat 1)
         (baseline (md_leontief_inverse sample_content) (md_demand sample_content)
            (total_output sample_model))) ∧
  (∃ r w', shock sample_model "Supply" F.zero 1 sample_world = (Return r, w') ∧
     Shock_effect_data r
     = replicate (Z.to_nat 1)
         (baseline (md_I_minus_A sample_content) (md_output sample_content)
            (total_final_demand sample_model))) ∧
  (∀ m v benchmark,
     np_sum (mat_vec m v) = benchmark →
     finite benchmark → benchmark ≠ F.zero →
     baseline m v benchmark = F.zero).
Proof.
  exact (zero_shock_gives_baseline sample_world sample_model sample_content 1
           sample_holds sample_prepared (conj (Z.le_refl 1) (Zle_bool_imp_le 1 3195 eq_refl))).
Defined.

(** C1 on the sample model, default shock size and sample size. *)
Lemma shock_effect_formula_witness :
  (∃ r w',
     shock sample_model "Demand" default_shock_size 300 sample_world = (Return r, w') ∧
     Shock_effect_data r
     = effect_of (md_leontief_inverse sample_content) (md_demand sample_content)
         (total_output sample_model) default_shock_size
       <$> drawn (rng sample_world) 300) ∧
  (∃ r w',
     shock sample_model "Supply" default_shock_size 300 sample_world = (Return r, w') ∧
     Shock_effect_data r
     = effect_of (md_I_minus_A sample_content) (md_output sample_content)
         (total_final_demand sample_model) default_shock_size
       <$> drawn (rng sample_world) 300).
Proof.
  apply (shock_effect_formula sample_world sample_model sample_content
           default_shock_size 300);
    [exact sample_holds|exact sample_prepared|lia].
Defined.

(** C4 for the default sample size. *)
Lemma sample_distinct_in_range_witness :
  ∃ sectors w', random_choice 3195 300 sample_world = (Return sectors, w') ∧
    length sectors = Z.to_nat 300 ∧ NoDup sectors ∧
    Forall (λ sec, sec < 3195) sectors.
Proof. apply (sample_distinct_in_range sample_world 300). lia. Defined.

(** C7 for a demand experiment on the sample model. *)
Lemma shock_leaves_model_unchanged_witness :
  model_state (after_shock sample_world (md_demand sample_content)
                 default_shock_size 300) sample_model
  = model_state sample_world sample_model ∧
  holds (after_shock sample_world (md_demand sample_content)
           default_shock_size 300) sample_model sample_content ∧
  (∀ l, l < length (heap sample_world) →
     heap (after_shock sample_world (md_demand sample_content)
             default_shock_size 300) !! l
     = heap sample_world !! l) ∧
  files (after_shock sample_world (md_demand sample_content)
           default_shock_size 300)
  = files sample_world.
Proof.
  apply (shock_leaves_model_unchanged sample_world sample_model sample_content
           "Demand" default_shock_size 300
           (statistics (effects_of sample_content "Demand" default_shock_size
                          (drawn (rng sample_world) 300))));
    [exact sample_holds|].
  apply shock_demand_spec; [exact sample_holds|exact sample_prepared|lia].
Defined.

(** C9 for the shock type "Unknown". *)
Lemma unknown_shock_type_fails_witness :
  shock sample_model "Unknown" default_shock_size 300 sample_world
  = (Raise (AssertionError ("Unknown shock type " +:+ "Unknown")), sample_world).
Proof.
  apply (unknown_shock_type_fails sample_world sample_model "Unknown"
           default_shock_size 300); discriminate.
Defined.

(** C8 (amended) for the sample size 3196. *)
Lemma sample_size_out_of_bounds_witness :
  ((3195 < 3196)%Z →
     shock sample_model "Demand" default_shock_size 3196 sample_world
     = (Raise (ValueError
          "Cannot take a larger sample than population when 'replace=False'"),
        sample_world)) ∧
  ((3196 < 0)%Z →
     shock sample_model "Demand" default_shock_size 3196 sample_world
     = (Raise (ValueError "negative dimensions are not allowed"), sample_world)) ∧
  (3196%Z = 0%Z →
     ∃ w', shock sample_model "Demand" default_shock_size 3196 sample_world
           = (statistics [], w') ∧
       rng w' = after_draw (rng sample_world) ∧ heap w' = heap sample_world).
Proof.
  apply (sample_size_out_of_bounds sample_world sample_model sample_content
           "Demand" default_shock_size 3196);
    [exact sample_holds|exact sample_prepared|by left].
Defined.

(** C2 (amended) for entry [0,0] of the sample model. *)
Lemma coefficient_matrix_entries_witness :
  ∃ arow x, md_A sample_content !! 0 = Some arow ∧ arow !! 0 = Some x ∧
    F.isnan x = false ∧
    (finite F.zero → finite (Fin (Q2Qc 804)) → Fin (Q2Qc 804) ≠ F.zero →
       x = (F.zero / Fin (Q2Qc 804))%F) ∧
    (F.isnan (F.zero / Fin (Q2Qc 804))%F = true → x = F.zero) ∧
    (F.zero = F.zero → Fin (Q2Qc 804) = F.zero → x = F.zero).
Proof.
  apply (coefficient_matrix_entries (md_io sample_content)
           (md_output sample_content) (md_A sample_content) 0 0
           (replicate 3195 F.zero) F.zero (Fin (Q2Qc 804))).
  - exact (model_of_table_coefficients sample_table sample_content
             sample_model_of_table).
  - apply lookup_replicate_2. lia.
  - apply lookup_replicate_2. lia.
  - apply lookup_replicate_2. lia.
Defined.

(** C6 (amended) for the effects 3, 1, 2. *)
Lemma percentile_order_witness :
  ∃ r, statistics [F.of_Q 3; F.of_Q 1; F.of_Q 2] = Return r ∧
    Shock_effect_data r = [F.of_Q 3; F.of_Q 1; F.of_Q 2] ∧
    F.leb (Median r) (Upper_1_quantile r) = true ∧
    (∃ lo, is_minimum lo [F.of_Q 3; F.of_Q 1; F.of_Q 2]) ∧
    (∃ hi, is_maximum hi [F.of_Q 3; F.of_Q 1; F.of_Q 2]) ∧
    ∀ lo hi,
      is_minimum lo [F.of_Q 3; F.of_Q 1; F.of_Q 2] →
      is_maximum hi [F.of_Q 3; F.of_Q 1; F.of_Q 2] →
      F.leb lo (Median r) = true ∧ F.leb (Median r) hi = true.
Proof.
  apply (percentile_order [F.of_Q 3; F.of_Q 1; F.of_Q 2]); [done|].
  exact three_effects_moderate.
Defined.

(** C5 for five replications on the sample table. *)
Lemma run_collects_percentiles_witness :
  let n := Z.to_nat 5 in
  let g1 := Nat.iter n after_draw (rng (world_with sample_table)) in
  let g2 := Nat.iter n after_draw g1 in
  ∃ self w0 w' result,
    ReproducibleResult___init__ 5 (world_with sample_table) = (Return self, w0) ∧
    shock_sizes self = [F.of_Q (3 # 10); F.of_Q (7 # 10); F.of_Q 1] ∧
    run self w0 = (Return (return_result self), w') ∧
    heap w' !! return_result self = Some (Dict result) ∧
    size result = 3 ∧
    result !! "for_30%_shock_size"
    = Some (replications sample_content (F.of_Q (3 # 10))
              (rng (world_with sample_table)) n) ∧
    result !! "for_70%_shock_size"
    = Some (replications sample_content (F.of_Q (7 # 10)) g1 n) ∧
    result !! "for_100%_shock_size"
    = Some (replications sample_content (F.of_Q 1) g2 n) ∧
    Forall (λ key, ∃ xs, result !! key = Some xs ∧ Z.of_nat (length xs) = 5%Z)
      ["for_30%_shock_size"; "for_70%_shock_size"; "for_100%_shock_size"].
Proof.
  apply (run_collects_percentiles (world_with sample_table) sample_table
           sample_content 5);
    [apply lookup_singleton_eq|exact sample_model_of_table|lia].
Defined.

(** C10 for two calls of [run], compared with the first. *)
Lemma run_accumulates_witness :
  ∃ self w0 wj wk aj bj cj ak bk ck,
    ReproducibleResult___init__ 5 (world_with sample_table) = (Return self, w0) ∧
    run_times 1 self w0 = (Return (), wj) ∧
    run_times 2 self w0 = (Return (), wk) ∧
    heap wj !! return_result self = Some (Dict (results aj bj cj)) ∧
    heap wk !! return_result self = Some (Dict (results ak bk ck)) ∧
    Forall (λ xs, Z.of_nat (length xs) = (Z.of_nat 2 * 5)%Z) [ak; bk; ck] ∧
    aj `prefix_of` ak ∧ bj `prefix_of` bk ∧ cj `prefix_of` ck.
Proof.
  apply (run_accumulates (world_with sample_table) sample_table sample_content
           5 1 2);
    [apply lookup_singleton_eq|exact sample_model_of_table|lia|lia].
Defined.

(** * Instances of the further properties *)

(** X1 on a table of one row labelled differently from its column. *)
Lemma misaligned_table_rejected_witness :
  Leontief_Model___init__ (world_with misaligned_table)
  = (Raise (if decide (length (row_labels misaligned_table)
                       = length (column_labels misaligned_table))
            then AssertionError ""
            else ValueError "Lengths must match to compare"),
     world_with misaligned_table).
Proof.
  apply (misaligned_table_rejected (world_with misaligned_table) misaligned_table);
    [apply lookup_singleton_eq|discriminate].
Defined.

(** X2 on the sample table. *)
Lemma accepted_table_layout_witness :
  files (world_with sample_table) !! "ICIO2021_2018.csv" = Some (df sample_model) ∧
  3195 ≤ length (rows (df sample_model)) ∧
  3196 ≤ length (columns (df sample_model)) ∧
  label <$> take 3195 (rows (df sample_model))
  = take 3195 (drop 1 (columns (df sample_model))) ∧
  Forall (λ r, 3598 ≤ length (cells r)) (take 3195 (rows (df sample_model))).
Proof.
  exact (accepted_table_layout (world_with sample_table) sample_model sample_world
           sample_constructed).
Defined.

(** X3 on the sample table. *)
Lemma constructor_attributes_witness :
  ∃ md, holds sample_world sample_model md ∧
    [io_matrix sample_model; demand sample_model; output sample_model;
     A sample_model; I_minus_A sample_model; leontief_inverse sample_model]
    = seq (length (heap (world_with sample_table))) 6 ∧
    length (heap sample_world) = length (heap (world_with sample_table)) + 6 ∧
    md_io md = extract_io_matrix (df sample_model) ∧
    md_demand md = extract_demand (df sample_model) ∧
    extract_output (df sample_model) = Return (md_output md) ∧
    coefficient_matrix (md_io md) (md_output md) = Return (md_A md) ∧
    identity_minus (md_A md) = Return (md_I_minus_A md) ∧
    np_linalg_inv (md_I_minus_A md) = Return (md_leontief_inverse md).
Proof.
  exact (constructor_attributes (world_with sample_table) sample_model sample_world
           sample_constructed).
Defined.

(** X4 on the sample table. *)
Lemma constructor_keeps_world_witness :
  (∀ l, l < length (heap (world_with sample_table)) →
     heap sample_world !! l = heap (world_with sample_table) !! l) ∧
  length (heap (world_with sample_table)) ≤ length (heap sample_world)
    ≤ length (heap (world_with sample_table)) + 6 ∧
  rng sample_world = rng (world_with sample_table) ∧
  files sample_world = files (world_with sample_table).
Proof.
  exact (constructor_keeps_world (world_with sample_table) (Return sample_model)
           sample_world sample_constructed).
Defined.




(** X8 for a demand experiment on the sample model. *)
Lemma experiment_footprint_witness :
  let v := if decide ("Demand" = "Demand") then md_demand sample_content
           else md_output sample_content in
  ∃ r w', shock sample_model "Demand" default_shock_size 300 sample_world
          = (Return r, w') ∧
    length (Shock_effect_data r) = Z.to_nat 300 ∧
    rng w' = after_draw (rng sample_world) ∧ files w' = files sample_world ∧
    ∃ copies, heap w' = heap sample_world ++ (Series <$> copies) ∧
      length copies = Z.to_nat 300 ∧
      Forall (λ c, length c = 3195 ∧
                ∃ sec, sec < 3195 ∧ ∀ i, i ≠ sec → c !! i = v !! i) copies.
Proof.
  apply (experiment_footprint sample_world sample_model sample_content
           "Demand" default_shock_size 300);
    [exact sample_holds|exact sample_prepared|by left|lia].
Defined.

(** X9 for the effects 1, 2, 3 and 3, 1, 2. *)
Lemma percentiles_ignore_order_witness :
  (∀ q, np_quantile [F.of_Q 3; F.of_Q 1; F.of_Q 2] q
        = np_quantile [F.of_Q 1; F.of_Q 2; F.of_Q 3] q) ∧
  (λ r, (Median r, Upper_5_quantile r, Upper_1_quantile r))
    <$> statistics [F.of_Q 3; F.of_Q 1; F.of_Q 2]
  = (λ r, (Median r, Upper_5_quantile r, Upper_1_quantile r))
    <$> statistics [F.of_Q 1; F.of_Q 2; F.of_Q 3].
Proof.
  apply (percentiles_ignore_order [F.of_Q 1; F.of_Q 2; F.of_Q 3]
           [F.of_Q 3; F.of_Q 1; F.of_Q 2]).
  symmetry. apply (Permutation_cons_append [F.of_Q 1; F.of_Q 2] (F.of_Q 3)).
Defined.

(** X10 for a demand experiment on the sample model. *)
Lemma full_sample_percentiles_witness :
  let census := effects_of sample_content "Demand" default_shock_size (seq 0 3195) in
  ∃ r w', shock sample_model "Demand" default_shock_size 3195 sample_world
          = (Return r, w') ∧
    Shock_effect_data r ≡ₚ census ∧
    Median r = quantile_linear census (Q2Qc (5 # 10)) ∧
    Upper_5_quantile r = quantile_linear census (Q2Qc (95 # 100)) ∧
    Upper_1_quantile r = quantile_linear census (Q2Qc (99 # 100)).
Proof.
  apply (full_sample_percentiles sample_world sample_model sample_content
           "Demand" default_shock_size);
    [exact sample_holds|exact sample_prepared|by left].
Defined.

(** X11 for the effects 3, 1, 2. *)
Lemma percentiles_chain_witness :
  ∃ r, statistics [F.of_Q 3; F.of_Q 1; F.of_Q 2] = Return r ∧
    F.leb (Median r) (Upper_5_quantile r) = true ∧
    F.leb (Upper_5_quantile r) (Upper_1_quantile r) = true ∧
    ∀ lo hi,
      is_minimum lo [F.of_Q 3; F.of_Q 1; F.of_Q 2] →
      is_maximum hi [F.of_Q 3; F.of_Q 1; F.of_Q 2] →
      F.leb lo (Median r) = true ∧ F.leb (Upper_1_quantile r) hi = true.
Proof.
  apply (percentiles_chain [F.of_Q 3; F.of_Q 1; F.of_Q 2]); [done|].
  exact three_effects_moderate.
Defined.

(** X12 for the effects 1, NaN, 3. *)
Lemma nan_effect_spoils_statistics_witness :
  ∃ r, statistics [F.of_Q 1; NaN; F.of_Q 3] = Return r ∧
    Average r = NaN ∧ Median r = NaN ∧
    Upper_5_quantile r = NaN ∧ Upper_1_quantile r = NaN.
Proof.
  apply (nan_effect_spoils_statistics [F.of_Q 1; NaN; F.of_Q 3]).
  repeat constructor.
Defined.

(** X13 for an aggregator with 0 replications. *)
Lemma run_without_replications_witness :
  run (aggregator 0) aggregator_world
  = (Return (return_result (aggregator 0)), aggregator_world).
Proof.
  apply (run_without_replications (aggregator 0) aggregator_world). done.
Defined.

(** X14 where the working directory does not hold the file. *)
Lemma run_stops_at_first_failure_witness :
  run (aggregator 20) aggregator_world
  = (Raise (FileNotFoundError "ICIO2021_2018.csv"), aggregator_world).
Proof.
  apply (run_stops_at_first_failure (aggregator 20) aggregator_world);
    [discriminate|done|exact aggregator_world_no_file].
Defined.

(** X15 for a run of five replications on the sample table: the run ends
    well, its dictionary holds five values under each key, and the run has
    only appended. *)
Lemma run_only_appends_witness :
  ∃ w', run (aggregator 5) sample_aggregator_world
        = (Return (return_result (aggregator 5)), w') ∧
    heap w' !! return_result (aggregator 5)
    = Some (Dict (results
        (replications sample_content (F.of_Q (3 # 10)) 0 5)
        (replications sample_content (F.of_Q (7 # 10)) 5 5)
        (replications sample_content (F.of_Q 1) 10 5))) ∧
    files w' = files sample_aggregator_world ∧
    (∀ l, l < length (heap sample_aggregator_world) →
          l ≠ return_result (aggregator 5) →
          heap w' !! l = heap sample_aggregator_world !! l) ∧
    ∀ d, heap sample_aggregator_world !! return_result (aggregator 5) = Some (Dict d) →
      ∃ d', heap w' !! return_result (aggregator 5) = Some (Dict d') ∧
        dom d' = dom d ∧
        ∀ key xs, d !! key = Some xs →
          ∃ xs', d' !! key = Some xs' ∧ xs `prefix_of` xs'.
Proof.
  destruct sample_run as (w' & Hrun & Hres).
  exists w'. split; [exact Hrun|]. split; [exact Hres|].
  exact (run_only_appends (aggregator 5) sample_aggregator_world
           (Return (return_result (aggregator 5))) w' Hrun).
Defined.

(** X19 on the sample table. *)
Lemma main_reports_replications_witness :
  let w := world_with sample_table in
  let g1 := Nat.iter 20 after_draw (rng w) in
  let g2 := Nat.iter 20 after_draw g1 in
  let a := replications sample_content (F.of_Q (3 # 10)) (rng w) 20 in
  let b := replications sample_content (F.of_Q (7 # 10)) g1 20 in
  let c := replications sample_content (F.of_Q 1) g2 20 in
  ∃ rest o w',
    main w = ((report a b c ++ rest, o), w') ∧
    (hist_error a = None → hist_error b = None → hist_error c = None →
     rest = figure a b c ∧ o = Return ()).
Proof.
  apply (main_reports_replications (world_with sample_table) sample_table
           sample_content);
    [apply lookup_singleton_eq|exact sample_model_of_table].
Defined.
